(** * MoodSync: the catalog store, the seeder and the query engine of app.py

    A shallow embedding of the functions of [src/app.py] that hold the
    program's logic: [youtube_search_link], [generate_language_rows],
    [ensure_dataset], [load_songs], [save_song], [filter_songs], the
    argument handling of [home] and the validation of [add_song].

    Text is modelled by [string] (8-bit characters).  The helpers below
    follow Python's [str] methods on ASCII text; a character above 127 is
    neither a letter, a digit nor white space here.  Python integers are
    [Z]. *)

From Stdlib Require Import ZArith List String Ascii Lia Permutation Sorted.
From Stdlib Require Import DecimalString DecimalPos DecimalZ.
From stdpp Require Import base gmap strings list sorting.

Import ListNotations.
Local Open Scope string_scope.
Local Open Scope Z_scope.

(** ** Python strings *)

Module PyStr.

Definition code (c : ascii) : N := N_of_ascii c.

(** [str.isspace] on one ASCII character: TAB, LF, VT, FF, CR, the four
    separators 28..31 and the blank. *)
Definition is_space (c : ascii) : bool :=
  let n := code c in
  ((9 <=? n) && (n <=? 13) || (28 <=? n) && (n <=? 32))%N.

Definition is_digit (c : ascii) : bool :=
  let n := code c in ((48 <=? n) && (n <=? 57))%N.

Definition is_upper (c : ascii) : bool :=
  let n := code c in ((65 <=? n) && (n <=? 90))%N.

Definition is_lower (c : ascii) : bool :=
  let n := code c in ((97 <=? n) && (n <=? 122))%N.

Definition lower_char (c : ascii) : ascii :=
  if is_upper c then ascii_of_N (code c + 32) else c.

Definition upper_char (c : ascii) : ascii :=
  if is_lower c then ascii_of_N (code c - 32) else c.

Fixpoint map_chars (f : ascii -> ascii) (s : string) : string :=
  match s with
  | EmptyString => EmptyString
  | String c r => String (f c) (map_chars f r)
  end.

(** [s.lower()] *)
Definition lower (s : string) : string := map_chars lower_char s.

(** [s.capitalize()]: first character upper-cased, the rest lower-cased. *)
Definition capitalize (s : string) : string :=
  match s with
  | EmptyString => EmptyString
  | String c r => String (upper_char c) (lower r)
  end.

Fixpoint lstrip (s : string) : string :=
  match s with
  | String c r => if is_space c then lstrip r else s
  | EmptyString => EmptyString
  end.

Fixpoint rstrip (s : string) : string :=
  match s with
  | EmptyString => EmptyString
  | String c r =>
      match rstrip r with
      | EmptyString => if is_space c then EmptyString else String c EmptyString
      | r' => String c r'
      end
  end.

(** [s.strip()] *)
Definition strip (s : string) : string := rstrip (lstrip s).

(** [needle in hay] *)
Fixpoint contains (needle hay : string) : bool :=
  String.prefix needle hay ||
  match hay with
  | EmptyString => false
  | String _ r => contains needle r
  end.

(** Truth value of a string: empty is false. *)
Definition nonempty (s : string) : bool :=
  match s with EmptyString => false | _ => true end.

(** Truth value of an optional string ([None] or [""] is false). *)
Definition truthy (o : option string) : bool :=
  match o with Some s => nonempty s | None => false end.

(** [o or d] for an optional string. *)
Definition or_default (o : option string) (d : string) : string :=
  match o with
  | Some s => if nonempty s then s else d
  | None => d
  end.

(** [str(z)] *)
Definition str_of_int (z : Z) : string := NilZero.string_of_int (Z.to_int z).

(** [f"{z:02d}"]: at least two characters, padded with a zero. *)
Definition fmt_02d (z : Z) : string :=
  let s := str_of_int z in
  if (String.length s <? 2)%nat then "0" ++ s else s.

(** The digits of an integer literal, most significant first, with single
    underscores allowed between digits; [acc] is the value read so far and
    [prev] tells whether the previous character was a digit. *)
Fixpoint digits (s : string) (acc : Z) (prev : bool) : option Z :=
  match s with
  | EmptyString => if prev then Some acc else None
  | String c r =>
      if is_digit c then digits r (10 * acc + Z.of_N (code c - 48)) true
      else if (code c =? 95)%N then (if prev then digits r acc false else None)
      else None
  end.

(** [int(s)] for a string [s]: white space stripped, an optional sign, then
    decimal digits; [None] stands for [ValueError]. *)
Definition int (s : string) : option Z :=
  match strip s with
  | String "+" r => digits r 0 false
  | String "-" r => Z.opp <$> digits r 0 false
  | r => digits r 0 false
  end.

Definition hex_digit (n : N) : ascii :=
  if (n <? 10)%N then ascii_of_N (48 + n) else ascii_of_N (55 + n).

Definition is_unreserved (c : ascii) : bool :=
  is_upper c || is_lower c || is_digit c ||
  (code c =? 95)%N || (code c =? 46)%N || (code c =? 45)%N || (code c =? 126)%N.

(** [urllib.parse.quote_plus]: unreserved characters are kept, the blank
    becomes a plus sign, every other byte is written as %XX. *)
Fixpoint quote_plus (s : string) : string :=
  match s with
  | EmptyString => EmptyString
  | String c r =>
      if is_unreserved c then String c (quote_plus r)
      else if (code c =? 32)%N then String "+" (quote_plus r)
      else String "%" (String (hex_digit (code c / 16))
                         (String (hex_digit (code c mod 16)) (quote_plus r)))
  end.

(** [" ".join(parts)] *)
Fixpoint join_blank (parts : list string) : string :=
  match parts with
  | [] => EmptyString
  | [p] => p
  | p :: ps => p ++ " " ++ join_blank ps
  end.

End PyStr.

(** ** Track records *)

(** A track: the six columns of the catalog, the shape of the rows of
    [BASE_SAMPLE_ROWS], of the rows [generate_language_rows] builds, of the
    row [add_song] saves and of the records [filter_songs] reads. *)
Record song := Song {
  title : string;
  artist : string;
  mood : string;
  energy : Z;
  language : string;
  link : string
}.

Definition MOODS : list string := ["Happy"; "Sad"; "Energetic"; "Calm"; "Focus"].
Definition LANGUAGES : list string := ["English"; "Telugu"; "Hindi"; "Tamil"; "Malayalam"].

Definition BASE_SAMPLE_ROWS : list song := [
  Song "On Top of the World" "Imagine Dragons" "Happy" 4 "English" "https://www.youtube.com/watch?v=w5tWYmIOWGk";
  Song "Counting Stars" "OneRepublic" "Happy" 4 "English" "https://www.youtube.com/watch?v=hT_nvWreIhg";
  Song "Someone Like You" "Adele" "Sad" 2 "English" "https://www.youtube.com/watch?v=hLQl3WQQoQ0";
  Song "Perfect" "Ed Sheeran" "Sad" 2 "English" "https://www.youtube.com/watch?v=2Vv-BfVoq4g";
  Song "Believer" "Imagine Dragons" "Energetic" 5 "English" "https://www.youtube.com/watch?v=7wtfhZwyrcc";
  Song "Levels" "Avicii" "Energetic" 5 "English" "https://www.youtube.com/watch?v=_ovdm2yX4MA";
  Song "Weightless" "Marconi Union" "Calm" 1 "English" "https://www.youtube.com/watch?v=UfcAVejslrU";
  Song "River Flows in You" "Yiruma" "Calm" 1 "Instrumental" "https://www.youtube.com/watch?v=7maJOI3QMu0";
  Song "Lofi Beats to Study" "Assorted" "Focus" 2 "Instrumental" "https://www.youtube.com/watch?v=jfKfPfyJRdk";
  Song "Rainy Night Study" "Assorted" "Focus" 2 "Instrumental" "https://www.youtube.com/watch?v=DWcJFNfaw9c"
].

(** ** Link resolver and catalog seeder *)

(** [youtube_search_link]: the non-empty parts joined by blanks,
    quoted, behind the search URL. *)
Definition youtube_search_link (parts : list string) : string :=
  "https://www.youtube.com/results?search_query=" ++
  PyStr.quote_plus (PyStr.join_blank (List.filter PyStr.nonempty parts)).

(** [range(lo, hi)] *)
Definition range (lo hi : Z) : list Z :=
  map (fun k => lo + Z.of_nat k) (seq 0 (Z.to_nat (hi - lo))).

(** The row built by the loop body of [generate_language_rows] at index [i]. *)
Definition generated_row (lang : string) (i : Z) : song :=
  let m := nth (Z.to_nat ((i - 1) mod Z.of_nat (length MOODS))) MOODS "" in
  {| title := lang ++ " " ++ m ++ " Track " ++ PyStr.fmt_02d i;
     artist := "Various";
     mood := m;
     energy := i mod 5 + 1;
     language := lang;
     link := youtube_search_link [lang; m; "song"] |}.

Definition generate_language_rows (lang : string) (count : Z) : list song :=
  map (generated_row lang) (range 1 (count + 1)).


(** ** The record store

    The file [songs.csv] after CSV parsing: it is missing, it cannot be read
    (opening or decoding it raises), or it holds a list of rows, the first of
    which the reader takes as the header.  Physical encoding and quoting are
    left to the [csv] module. *)

Definition csv_row := list string.

Inductive store :=
| Absent
| Unreadable
| Present (lines : list csv_row).

Definition HEADER : csv_row :=
  ["title"; "artist"; "mood"; "energy"; "language"; "link"].

(** [writer.writerow([title, artist, mood, energy, language, link])]: the
    energy is written with [str]. *)
Definition writerow (s : song) : csv_row :=
  [title s; artist s; mood s; PyStr.str_of_int (energy s); language s; link s].

(** Values found in a row dictionary: [None], a string, or an integer. *)
Inductive pyval :=
| PNone
| PStr (s : string)
| PInt (z : Z).

#[global] Instance pyval_eq_dec : EqDecision pyval.
Proof. solve_decision. Defined.

(** Truth value of what [row.get(key)] returns. *)
Definition py_truthy (o : option pyval) : bool :=
  match o with
  | None | Some PNone => false
  | Some (PStr s) => PyStr.nonempty s
  | Some (PInt z) => negb (z =? 0)
  end.

(** One [csv.DictReader] row: [dict(zip(fieldnames, row))], then every field
    name the row is too short for is set to [None].  (Surplus values go under
    the key [None], which no lookup of the program reads.) *)
Fixpoint zip_row (names : list string) (row : csv_row) (d : gmap string pyval)
  : gmap string pyval :=
  match names, row with
  | k :: ks, v :: vs => zip_row ks vs (<[k := PStr v]> d)
  | k :: ks, [] => zip_row ks [] (<[k := PNone]> d)
  | [], _ => d
  end.

Definition is_blank_row (r : csv_row) : bool :=
  match r with [] => true | _ => false end.

(** [csv.DictReader(f)]: the first row gives the field names, empty rows are
    skipped. *)
Definition dict_reader (lines : list csv_row) : list (gmap string pyval) :=
  match lines with
  | [] => []
  | names :: rows =>
      map (fun r => zip_row names r ∅) (List.filter (fun r => negb (is_blank_row r)) rows)
  end.

(** [{lang: 0 for lang in LANGUAGES}] *)
Definition zero_counts : gmap string Z :=
  foldl (fun m lang => <[lang := 0]> m) ∅ LANGUAGES.

(** The body of the counting loop of [ensure_dataset]. *)
Definition count_row (counts : gmap string Z) (row : gmap string pyval) : gmap string Z :=
  match default (PStr "") (row !! "language") with
  | PStr lang =>
      match counts !! lang with
      | Some n => <[lang := n + 1]> counts
      | None => counts
      end
  | _ => counts
  end.

Definition language_counts (lines : list csv_row) : gmap string Z :=
  foldl count_row zero_counts (dict_reader lines).

(** The rows [more] that [ensure_dataset] collects for the languages below
    the minimum. *)
Definition top_up (min_per_language : Z) (counts : gmap string Z) : list song :=
  flat_map
    (fun lang =>
       if default 0 (counts !! lang) <? min_per_language
       then generate_language_rows lang (min_per_language - default 0 (counts !! lang))
       else [])
    LANGUAGES.

(** The branch of [ensure_dataset] that writes a new file. *)
Definition create_dataset (min_per_language : Z) : store :=
  Present
    (HEADER :: map writerow BASE_SAMPLE_ROWS ++
     flat_map (fun lang => map writerow (generate_language_rows lang min_per_language))
       ["Telugu"; "Hindi"; "Tamil"; "Malayalam"; "English"]).

(** [ensure_dataset(min_per_language)].  When reading raises, the file is
    removed and the recursive call finds no file, so it writes a new one. *)
Definition ensure_dataset (min_per_language : Z) (st : store) : store :=
  match st with
  | Absent => create_dataset min_per_language
  | Unreadable => create_dataset min_per_language
  | Present lines =>
      match top_up min_per_language (language_counts lines) with
      | [] => st
      | more => Present (lines ++ map writerow more)
      end
  end.

(** Exceptions that leave a function of the program. *)
Inductive exn :=
| FileNotFoundError
| ReadError
| TypeError.

Inductive result (A : Type) :=
| Ok (a : A)
| Raise (e : exn).
Arguments Ok {A} a.
Arguments Raise {A} e.

Definition bind {A B} (r : result A) (k : A -> result B) : result B :=
  match r with
  | Ok a => k a
  | Raise e => Raise e
  end.

(** Opening the file for reading and parsing all of it. *)
Definition read_lines (st : store) : result (list csv_row) :=
  match st with
  | Absent => Raise FileNotFoundError
  | Unreadable => Raise ReadError
  | Present lines => Ok lines
  end.

(** [int(row.get("energy", "3"))] with its [except ValueError]: a string that
    does not parse gives 3; [None] (a row too short for the energy column)
    raises [TypeError], which is not caught. *)
Definition parse_energy (row : gmap string pyval) : result Z :=
  match default (PStr "3") (row !! "energy") with
  | PStr s => Ok (default 3 (PyStr.int s))
  | PInt z => Ok z
  | PNone => Raise TypeError
  end.

(** The loop of [load_songs]; [songs] is the list built so far. *)
Fixpoint load_loop (rows : list (gmap string pyval)) (songs : list (gmap string pyval))
  : result (list (gmap string pyval)) :=
  match rows with
  | [] => Ok songs
  | row :: rest =>
      if negb (py_truthy (row !! "title")) || negb (py_truthy (row !! "mood"))
      then load_loop rest songs
      else bind (parse_energy row) (fun e =>
             load_loop rest (songs ++ [<["energy" := PInt e]> row]))
  end.

(** [load_songs()]: the store it leaves and what it returns. *)
Definition load_songs (st : store) : store * result (list (gmap string pyval)) :=
  let st' := ensure_dataset 20 st in
  (st', bind (read_lines st') (fun lines => load_loop (dict_reader lines) [])).

(** Opening the file in append mode and writing one row. *)
Definition append_row (r : csv_row) (st : store) : store :=
  match st with
  | Absent => Present [r]
  | Unreadable => Unreadable
  | Present lines => Present (lines ++ [r])
  end.

(** [save_song(row)] *)
Definition save_song (row : song) (st : store) : store :=
  let st' := match st with Absent => ensure_dataset 20 st | _ => st end in
  append_row (writerow row) st'.

(** ** Adding a song *)

Inductive response :=
| RedirectAddSong (flash : string)
| RedirectAllSongs (flash : string)
| RenderAddForm.

Inductive http_method := GET | POST.

(** [x in l] for strings. *)
Definition str_in (x : string) (l : list string) : bool := existsb (String.eqb x) l.

(** [add_song()] on the submitted form; returns the store it leaves. *)
Definition add_song (method : http_method) (form : gmap string string) (st : store)
  : store * response :=
  match method with
  | GET => (st, RenderAddForm)
  | POST =>
      let title := PyStr.strip (PyStr.or_default (form !! "title") "") in
      let artist := PyStr.strip (PyStr.or_default (form !! "artist") "Unknown") in
      let mood := PyStr.capitalize (PyStr.strip (PyStr.or_default (form !! "mood") "")) in
      let language := PyStr.strip (PyStr.or_default (form !! "language") "Unknown") in
      let link := PyStr.strip (PyStr.or_default (form !! "link") "") in
      let energy :=
        match PyStr.int (PyStr.or_default (form !! "energy") "3") with
        | Some e => Z.min (Z.max e 1) 5
        | None => 3
        end in
      if negb (PyStr.nonempty title) || negb (PyStr.nonempty mood) || negb (str_in mood MOODS)
      then (st, RedirectAddSong "Please provide a valid Title and Mood.")
      else
        let link :=
          if negb (PyStr.nonempty link)
          then youtube_search_link [title; artist; language; mood; "song"]
          else link in
        (save_song (Song title artist mood energy language link) st,
         RedirectAllSongs "✅ Song added!")
  end.


(** ** The query engine *)

(** [list.sort(key=lambda s: s["energy"])]: a stable sort, here by insertion
    from the right, an element going before the first one whose energy is not
    smaller. *)
Fixpoint insert_by_energy (x : song) (l : list song) : list song :=
  match l with
  | [] => [x]
  | y :: r => if energy x <=? energy y then x :: y :: r else y :: insert_by_energy x r
  end.

Fixpoint sort_by_energy (l : list song) : list song :=
  match l with
  | [] => []
  | x :: r => insert_by_energy x (sort_by_energy r)
  end.

(** [list.sort(key=..., reverse=reverse)]: with [reverse] the list is
    reversed, sorted and reversed again, which keeps equal keys in their
    original order. *)
Definition list_sort (reverse : bool) (l : list song) : list song :=
  if reverse then rev (sort_by_energy (rev l)) else sort_by_energy l.

(** The list object the local variable [out] of [filter_songs] is bound to:
    the caller's list [songs] itself, or a list a comprehension has built. *)
Inductive binding :=
| CallerList
| NewList (l : list song).

Definition contents (songs : list song) (b : binding) : list song :=
  match b with
  | CallerList => songs
  | NewList l => l
  end.

(** What a call leaves: the object it returns and the caller's list. *)
Record outcome := Outcome {
  returned : binding;
  caller_list : list song
}.

(** The list the caller reads through the returned object. *)
Definition value (o : outcome) : list song := contents (caller_list o) (returned o).

(** [out = [s for s in out if p(s)]] when [cond] holds. *)
Definition comprehension (cond : bool) (p : song -> bool) (songs : list song) (out : binding)
  : binding :=
  if cond then NewList (List.filter p (contents songs out)) else out.

Definition mood_matches (m : string) (s : song) : bool :=
  String.eqb (PyStr.lower (mood s)) (PyStr.lower m).

Definition language_matches (l : string) (s : song) : bool :=
  String.eqb (PyStr.lower (language s)) (PyStr.lower l).

Definition text_matches (q : string) (s : song) : bool :=
  PyStr.contains (PyStr.lower q) (PyStr.lower (title s)) ||
  PyStr.contains (PyStr.lower q) (PyStr.lower (artist s)).

(** The five filters of [filter_songs], in order. *)
Definition apply_filters (songs : list song) (mood language q : option string)
    (energy_min energy_max : option Z) : binding :=
  let out := CallerList in
  let out := comprehension (PyStr.truthy mood)
               (mood_matches (default "" mood)) songs out in
  let out := comprehension
               (PyStr.truthy language && negb (String.eqb (default "" language) "Any"))
               (language_matches (default "" language)) songs out in
  let out := comprehension (PyStr.truthy q) (text_matches (default "" q)) songs out in
  let out := comprehension (bool_decide (is_Some energy_min))
               (fun s => default 0 energy_min <=? energy s) songs out in
  let out := comprehension (bool_decide (is_Some energy_max))
               (fun s => energy s <=? default 0 energy_max) songs out in
  out.

(** [mood in ("Energetic", "Happy")] *)
Definition high_energy_mood (mood : option string) : bool :=
  match mood with
  | Some m => str_in m ["Energetic"; "Happy"]
  | None => false
  end.

(** [out.sort(...)] sorts the object [out] is bound to, in place. *)
Definition sort_in_place (reverse : bool) (songs : list song) (out : binding) : outcome :=
  match out with
  | CallerList => Outcome CallerList (list_sort reverse songs)
  | NewList l => Outcome (NewList (list_sort reverse l)) songs
  end.

(** [filter_songs(songs, mood, language, q, energy_min, energy_max)] *)
Definition filter_songs (songs : list song) (mood language q : option string)
    (energy_min energy_max : option Z) : outcome :=
  sort_in_place (high_energy_mood mood) songs
    (apply_filters songs mood language q energy_min energy_max).

(** ** The recommendation request *)

(** [int(v) if v else None]; the outer [None] stands for [ValueError]. *)
Definition int_or_none (v : option string) : option (option Z) :=
  if PyStr.truthy v then
    match PyStr.int (default "" v) with
    | Some z => Some (Some z)
    | None => None
    end
  else Some None.

(** The [try] block of [home]: one handler for both conversions. *)
Definition parse_bounds (emin emax : option string) : option Z * option Z :=
  match int_or_none emin with
  | None => (None, None)
  | Some emin_i =>
      match int_or_none emax with
      | None => (None, None)
      | Some emax_i => (emin_i, emax_i)
      end
  end.

(** The rows [home] hands to the presentation, [filtered[:100]], for the
    request arguments [args] and the list [songs] that [load_songs] returned. *)
Definition home_rows (args : gmap string string) (songs : list song) : list song :=
  let mood := args !! "mood" in
  let language := args !! "language" in
  let q := args !! "q" in
  let emin := args !! "emin" in
  let emax := args !! "emax" in
  if PyStr.truthy mood then
    let '(emin_i, emax_i) := parse_bounds emin emax in
    take 100 (value (filter_songs songs mood language q emin_i emax_i))
  else [].


(** ** Presentation and the full listing *)

(** The sort key of the full listing, [(s["artist"].lower(),
    s["title"].lower())]. *)
Definition name_key (s : song) : string * string :=
  (PyStr.lower (artist s), PyStr.lower (title s)).

(** [k1 < k2] for two such tuples: the first components decide unless they
    are equal. *)
Definition key_ltb (k1 k2 : string * string) : bool :=
  match String.compare (fst k1) (fst k2) with
  | Lt => true
  | Gt => false
  | Eq => String.ltb (snd k1) (snd k2)
  end.

(** [sorted(songs, key=...)]: a stable sort by that key. *)
Fixpoint insert_by_name (x : song) (l : list song) : list song :=
  match l with
  | [] => [x]
  | y :: r =>
      if key_ltb (name_key y) (name_key x) then y :: insert_by_name x r else x :: y :: r
  end.

Fixpoint sort_by_name (l : list song) : list song :=
  match l with
  | [] => []
  | x :: r => insert_by_name x (sort_by_name r)
  end.

(** The rows [all_songs] hands to the presentation, [songs_sorted[:300]]. *)
Definition all_rows (songs : list song) : list song := take 300 (sort_by_name songs).

Section Presentation.

(** [textwrap.shorten(text, width)], a library function, is a parameter. *)
Variable shorten : string -> Z -> string.

(** [shorten_row(r)] *)
Definition shorten_row (r : song) : song :=
  let stored := PyStr.strip (link r) in
  {| title := shorten (title r) 32;
     artist := shorten (artist r) 18;
     mood := mood r;
     energy := energy r;
     language := language r;
     link := if negb (PyStr.nonempty stored)
             then youtube_search_link [title r; artist r; language r; mood r; "song"]
             else stored |}.

(** The [results] of [home] and of [all_songs]. *)
Definition home_results (args : gmap string string) (songs : list song) : list song :=
  map shorten_row (home_rows args songs).

Definition all_songs_results (songs : list song) : list song :=
  map shorten_row (all_rows songs).

End Presentation.

(** * Vocabulary of the statements *)

(** How many rows of [rows] carry the mood [m]. *)
Definition mood_count (m : string) (rows : list song) : nat :=
  length (List.filter (fun r => String.eqb (mood r) m) rows).

(** Energies never decrease / never increase along the list. *)
Definition ascending (l : list song) : Prop :=
  StronglySorted (fun a b => energy a <= energy b) l.

Definition descending (l : list song) : Prop :=
  StronglySorted (fun a b => energy b <= energy a) l.

(** The records of energy [e], in the order of the list. *)
Definition with_energy (e : Z) (l : list song) : list song :=
  List.filter (fun s => energy s =? e) l.

(** A filter that is applied only when its argument is given. *)
Definition guard (given : bool) (p : song -> bool) (s : song) : bool :=
  if given then p s else true.

(** A record passes every filter whose argument is given. *)
Definition passes (mood language q : option string) (energy_min energy_max : option Z)
    (s : song) : bool :=
  guard (PyStr.truthy mood) (mood_matches (default "" mood)) s &&
  (guard (PyStr.truthy language && negb (String.eqb (default "" language) "Any"))
     (language_matches (default "" language)) s &&
   (guard (PyStr.truthy q) (text_matches (default "" q)) s &&
    (guard (bool_decide (is_Some energy_min)) (fun s => default 0 energy_min <=? energy s) s &&
     guard (bool_decide (is_Some energy_max)) (fun s => energy s <=? default 0 energy_max) s))).

(** At least one of the five filters is applied. *)
Definition some_filter_given (mood language q : option string)
    (energy_min energy_max : option Z) : bool :=
  PyStr.truthy mood ||
  (PyStr.truthy language && negb (String.eqb (default "" language) "Any")) ||
  PyStr.truthy q || bool_decide (is_Some energy_min) || bool_decide (is_Some energy_max).

Definition is_new (b : binding) : bool :=
  match b with
  | CallerList => false
  | NewList _ => true
  end.

(** Two tracks of the curated list, the louder one first. *)
Definition two_tracks : list song := [
  Song "Levels" "Avicii" "Energetic" 5 "English" "https://www.youtube.com/watch?v=_ovdm2yX4MA";
  Song "Weightless" "Marconi Union" "Calm" 1 "English" "https://www.youtube.com/watch?v=UfcAVejslrU"
].

(** A catalog whose languages spell the sentinel in three ways. *)
Definition sentinel_tracks : list song := [
  Song "One" "Various" "Calm" 2 "any" "";
  Song "Two" "Various" "Calm" 1 "Any" "";
  Song "Three" "Various" "Calm" 3 "Hindi" ""
].

(** A request value that is given but is not an integer literal. *)
Definition malformed (v : option string) : Prop :=
  PyStr.truthy v = true /\ PyStr.int (default "" v) = None.

(** The bound a well-formed request value stands for. *)
Definition bound_of (v : option string) : option Z :=
  if PyStr.truthy v then PyStr.int (default "" v) else None.

(** A request for energetic tracks with an unreadable lower bound and the
    upper bound 2. *)
Definition bad_emin_request : gmap string string :=
  <["emax" := "2"]> (<["emin" := "low"]> {["mood" := "Energetic"]}).

(** A submission without a title. *)
Definition untitled_form : gmap string string :=
  <["mood" := "Happy"]> {["title" := "  "]}.

(** The rows a reader finds in the store. *)
Definition stored_rows (st : store) : list (gmap string pyval) :=
  match st with
  | Present lines => dict_reader lines
  | _ => []
  end.

(** The test of [load_songs]: a row with a title and a mood. *)
Definition kept (d : gmap string pyval) : bool :=
  py_truthy (d !! "title") && py_truthy (d !! "mood").

(** The energy a stored row is given on load: the integer its text denotes,
    or 3 when the text is no integer literal or the file has no energy
    column. *)
Definition energy_value (d : gmap string pyval) : Z :=
  match d !! "energy" with
  | Some (PStr s) => default 3 (PyStr.int s)
  | Some (PInt z) => z
  | _ => 3
  end.




(** The count [ensure_dataset] itself makes for a language. *)
Definition counted (lang : string) (st : store) : Z :=
  match st with
  | Present lines => default 0 (language_counts lines !! lang)
  | _ => 0
  end.


(** A catalog with one track whose stored energy is 9. *)
Definition loud_catalog : store :=
  Present [HEADER; ["Too Loud"; "Nobody"; "Energetic"; "9"; "English"; ""]].

(** Every character of the string satisfies [p]. *)
Fixpoint all_chars (p : ascii -> bool) (s : string) : bool :=
  match s with
  | EmptyString => true
  | String c r => p c && all_chars p r
  end.

(** Characters a quoted query may hold: unreserved ones, the plus sign and
    the percent sign. *)
Definition url_safe (c : ascii) : bool :=
  PyStr.is_unreserved c || (PyStr.code c =? 43)%N || (PyStr.code c =? 37)%N.


(** A row fit for the catalog. *)
Definition valid_row (s : song) : Prop :=
  title s <> "" /\ In (mood s) MOODS /\ 1 <= energy s <= 5 /\ link s <> "".

(** The energy every generated row of a mood carries. *)
Definition energy_of_mood (m : string) : Z :=
  if String.eqb m "Happy" then 2
  else if String.eqb m "Sad" then 3
  else if String.eqb m "Energetic" then 4
  else if String.eqb m "Calm" then 5
  else 1.

(** Keys never decrease along the list. *)
Definition sorted_by_name (l : list song) : Prop :=
  StronglySorted (fun a b => key_ltb (name_key b) (name_key a) = false) l.

(** The records with the key [k], in the order of the list. *)
Definition with_key (k : string * string) (l : list song) : list song :=
  List.filter (fun s => bool_decide (name_key s = k)) l.

(** The value of a decimal numeral read after the value [acc]. *)
Fixpoint decimal_value (d : Decimal.uint) (acc : Z) : Z :=
  match d with
  | Decimal.Nil => acc
  | Decimal.D0 l => decimal_value l (10 * acc + 0)
  | Decimal.D1 l => decimal_value l (10 * acc + 1)
  | Decimal.D2 l => decimal_value l (10 * acc + 2)
  | Decimal.D3 l => decimal_value l (10 * acc + 3)
  | Decimal.D4 l => decimal_value l (10 * acc + 4)
  | Decimal.D5 l => decimal_value l (10 * acc + 5)
  | Decimal.D6 l => decimal_value l (10 * acc + 6)
  | Decimal.D7 l => decimal_value l (10 * acc + 7)
  | Decimal.D8 l => decimal_value l (10 * acc + 8)
  | Decimal.D9 l => decimal_value l (10 * acc + 9)
  end.

(** * Properties *)

Local Open Scope list_scope.

(** ** Catalog seeder *)

Section Seeder.

Variable lang : string.

Lemma range_length lo hi : length (range lo hi) = Z.to_nat (hi - lo).
Proof. unfold range. now rewrite length_map, length_seq. Qed.

Lemma range_lookup lo hi (k : nat) :
  (k < Z.to_nat (hi - lo))%nat -> range lo hi !! k = Some (lo + Z.of_nat k).
Proof.
  intros Hk. unfold range.
  rewrite list_lookup_fmap, lookup_seq_lt by assumption. reflexivity.
Qed.

(** The rows for [count = N], built index by index. *)
Lemma generate_snoc (N : nat) :
  generate_language_rows lang (Z.of_nat (S N)) =
  generate_language_rows lang (Z.of_nat N) ++ [generated_row lang (Z.of_nat N + 1)].
Proof.
  unfold generate_language_rows, range.
  replace (Z.to_nat (Z.of_nat (S N) + 1 - 1)) with (S N) by lia.
  replace (Z.to_nat (Z.of_nat N + 1 - 1)) with N by lia.
  rewrite seq_S, !map_app. simpl. do 3 f_equal. lia.
Qed.

Lemma generated_row_link i : link (generated_row lang i) <> "".
Proof. discriminate. Qed.

(** The mood list has no repetition: the mood of row [i] is the [k]-th mood
    exactly when [(i - 1) mod 5 = k]. *)
Lemma generated_row_mood_eqb (i : Z) (k : nat) :
  (k < length MOODS)%nat ->
  String.eqb (mood (generated_row lang i)) (nth k MOODS "") =
  ((i - 1) mod 5 =? Z.of_nat k).
Proof.
  intros Hk. unfold generated_row; cbn [mood].
  change (Z.of_nat (length MOODS)) with 5.
  assert (Hm : 0 <= (i - 1) mod 5 < 5) by (apply Z.mod_pos_bound; lia).
  assert (Hc : (i - 1) mod 5 = 0 \/ (i - 1) mod 5 = 1 \/ (i - 1) mod 5 = 2 \/
               (i - 1) mod 5 = 3 \/ (i - 1) mod 5 = 4) by lia.
  change (length MOODS) with 5%nat in Hk.
  assert (Hk' : (k = 0 \/ k = 1 \/ k = 2 \/ k = 3 \/ k = 4)%nat) by lia.
  destruct Hc as [-> | [-> | [-> | [-> | ->]]]];
    destruct Hk' as [-> | [-> | [-> | [-> | ->]]]]; reflexivity.
Qed.

Lemma mood_count_generate (N k : nat) :
  (k < length MOODS)%nat ->
  Z.of_nat (mood_count (nth k MOODS "") (generate_language_rows lang (Z.of_nat N))) =
  (Z.of_nat N + 4 - Z.of_nat k) / 5.
Proof.
  intros Hk. induction N as [| N IH].
  - change (length MOODS) with 5%nat in Hk.
    assert (Hk' : (k = 0 \/ k = 1 \/ k = 2 \/ k = 3 \/ k = 4)%nat) by lia.
    destruct Hk' as [-> | [-> | [-> | [-> | ->]]]]; reflexivity.
  - rewrite generate_snoc. unfold mood_count in *.
    rewrite List.filter_app, length_app, Nat2Z.inj_add, IH.
    cbn [List.filter]. rewrite generated_row_mood_eqb by assumption.
    replace (Z.of_nat N + 1 - 1) with (Z.of_nat N) by lia.
    change (length MOODS) with 5%nat in Hk.
    destruct (Z.eqb_spec (Z.of_nat N mod 5) (Z.of_nat k)) as [E | E]; cbn [length];
      Z.div_mod_to_equations; lia.
Qed.

End Seeder.

(** C6. For a count [n >= 0], [generate_language_rows lang n] has exactly [n]
    rows; the row of index [i] (from 1 to [n]) has the mood at position
    [(i - 1) mod |MOODS|] of the mood list and energy [(i mod 5) + 1]; every
    mood of the list is used at least [n / |MOODS|] times (rounded down); and
    every row has a non-empty link. *)
Theorem generate_language_rows_spec (lang : string) (n : Z) :
  0 <= n ->
  let rows := generate_language_rows lang n in
  Z.of_nat (length rows) = n /\
  (forall i, 1 <= i <= n ->
     exists r, rows !! Z.to_nat (i - 1) = Some r /\
       MOODS !! Z.to_nat ((i - 1) mod Z.of_nat (length MOODS)) = Some (mood r) /\
       energy r = i mod 5 + 1) /\
  (forall m, In m MOODS ->
     n / Z.of_nat (length MOODS) <= Z.of_nat (mood_count m rows)) /\
  Forall (fun r => link r <> "") rows.
Proof.
  intros Hn rows. subst rows. repeat split.
  - unfold generate_language_rows. rewrite length_map, range_length. lia.
  - intros i Hi. exists (generated_row lang i). split; [| split].
    + unfold generate_language_rows. rewrite list_lookup_fmap.
      rewrite range_lookup by lia.
      cbn. f_equal. f_equal. lia.
    + unfold generated_row; cbn [mood].
      assert (Hm : 0 <= (i - 1) mod Z.of_nat (length MOODS) < Z.of_nat (length MOODS))
        by (apply Z.mod_pos_bound; cbn; lia).
      destruct (nth_lookup_or_length MOODS
                  (Z.to_nat ((i - 1) mod Z.of_nat (length MOODS))) "") as [E | E];
        [exact E | lia].
    + reflexivity.
  - intros m Hm.
    apply In_nth with (d := "") in Hm. destruct Hm as (k & Hk & <-).
    rewrite <- (Z2Nat.id n) at 2 by assumption.
    rewrite mood_count_generate by assumption.
    change (Z.of_nat (length MOODS)) with 5.
    change (length MOODS) with 5%nat in Hk.
    rewrite Z2Nat.id by assumption.
    Z.div_mod_to_equations; lia.
  - unfold generate_language_rows. apply List.Forall_forall. intros r Hr.
    apply in_map_iff in Hr. destruct Hr as (i & <- & _). apply generated_row_link.
Qed.

Lemma generate_language_rows_spec_witness :
  let rows := generate_language_rows "Tamil" 7 in
  Z.of_nat (length rows) = 7 /\
  (forall i, 1 <= i <= 7 ->
     exists r, rows !! Z.to_nat (i - 1) = Some r /\
       MOODS !! Z.to_nat ((i - 1) mod Z.of_nat (length MOODS)) = Some (mood r) /\
       energy r = i mod 5 + 1) /\
  (forall m, In m MOODS ->
     7 / Z.of_nat (length MOODS) <= Z.of_nat (mood_count m rows)) /\
  Forall (fun r => link r <> "") rows.
Proof. apply (generate_language_rows_spec "Tamil" 7). lia. Defined.

(** ** Query engine: the sort *)

Section Sorting.

Lemma insert_by_energy_perm x l : Permutation (x :: l) (insert_by_energy x l).
Proof.
  induction l as [| y r IH]; cbn; [reflexivity |].
  destruct (energy x <=? energy y); [reflexivity |].
  rewrite perm_swap. now constructor.
Qed.

Lemma sort_by_energy_perm l : Permutation l (sort_by_energy l).
Proof.
  induction l as [| x r IH]; cbn; [constructor |].
  rewrite <- insert_by_energy_perm. now constructor.
Qed.

Lemma insert_by_energy_ascending x l :
  ascending l -> ascending (insert_by_energy x l).
Proof.
  unfold ascending. induction 1 as [| y r Hr IH Hy]; cbn.
  - repeat constructor.
  - destruct (Z.leb_spec (energy x) (energy y)) as [Hxy | Hxy].
    + constructor; [now constructor |].
      constructor; [assumption |].
      eapply List.Forall_impl; [| exact Hy]. cbn. intros; lia.
    + constructor; [assumption |].
      eapply Permutation_Forall; [apply insert_by_energy_perm |].
      constructor; [lia | assumption].
Qed.

Lemma sort_by_energy_ascending l : ascending (sort_by_energy l).
Proof.
  induction l as [| x r IH]; cbn; [constructor |].
  now apply insert_by_energy_ascending.
Qed.

Lemma ascending_rev l : ascending l -> descending (rev l).
Proof.
  unfold ascending, descending. induction 1 as [| x r Hr IH Hx]; cbn.
  - constructor.
  - apply StronglySorted_app_2; [| assumption | repeat constructor].
    intros a b Ha Hb. apply list_elem_of_singleton in Hb. subst b.
    rewrite List.Forall_forall in Hx. apply Hx.
    apply list_elem_of_In in Ha. now apply in_rev.
Qed.

Lemma descending_rev l : descending l -> ascending (rev l).
Proof.
  unfold ascending, descending. induction 1 as [| x r Hr IH Hx]; cbn.
  - constructor.
  - apply StronglySorted_app_2; [| assumption | repeat constructor].
    intros a b Ha Hb. apply list_elem_of_singleton in Hb. subst b.
    rewrite List.Forall_forall in Hx. apply Hx.
    apply list_elem_of_In in Ha. now apply in_rev.
Qed.

(** Insertion keeps the records of each energy in order. *)
Lemma insert_by_energy_stable e x l :
  with_energy e (insert_by_energy x l) = with_energy e (x :: l).
Proof.
  unfold with_energy. induction l as [| y r IH]; [reflexivity |].
  cbn [insert_by_energy]. destruct (Z.leb_spec (energy x) (energy y)) as [Hxy | Hxy];
    [reflexivity |].
  cbn [List.filter] in *. rewrite IH.
  destruct (Z.eqb_spec (energy x) e), (Z.eqb_spec (energy y) e); try reflexivity; lia.
Qed.

Lemma sort_by_energy_stable e l :
  with_energy e (sort_by_energy l) = with_energy e l.
Proof.
  induction l as [| x r IH]; [reflexivity |].
  cbn [sort_by_energy]. rewrite insert_by_energy_stable.
  unfold with_energy in *. cbn [List.filter]. now rewrite IH.
Qed.

(** A sorted list is left as it is. *)
Lemma sort_by_energy_fixed l : ascending l -> sort_by_energy l = l.
Proof.
  unfold ascending. induction 1 as [| x r Hr IH Hx]; [reflexivity |].
  cbn [sort_by_energy]. rewrite IH.
  destruct Hx as [| y r' Hxy _]; [reflexivity |].
  cbn [insert_by_energy]. destruct (Z.leb_spec (energy x) (energy y)); [reflexivity | lia].
Qed.

Lemma list_sort_perm rv l : Permutation l (list_sort rv l).
Proof.
  unfold list_sort. destruct rv; [| apply sort_by_energy_perm].
  rewrite <- Permutation_rev, <- sort_by_energy_perm. apply Permutation_rev.
Qed.

Lemma list_sort_sorted (rv : bool) l :
  if rv then descending (list_sort rv l) else ascending (list_sort rv l).
Proof.
  unfold list_sort. destruct rv; [| apply sort_by_energy_ascending].
  apply ascending_rev, sort_by_energy_ascending.
Qed.

Lemma list_sort_stable rv e l : with_energy e (list_sort rv l) = with_energy e l.
Proof.
  unfold list_sort. destruct rv; [| apply sort_by_energy_stable].
  unfold with_energy. rewrite filter_rev.
  fold (with_energy e (sort_by_energy (rev l))). rewrite sort_by_energy_stable.
  unfold with_energy. now rewrite filter_rev, rev_involutive.
Qed.

Lemma list_sort_idem rv l : list_sort rv (list_sort rv l) = list_sort rv l.
Proof.
  pose proof (list_sort_sorted rv l) as Hs. unfold list_sort in *. destruct rv.
  - rewrite sort_by_energy_fixed by now apply descending_rev.
    now rewrite rev_involutive.
  - now apply sort_by_energy_fixed.
Qed.

End Sorting.

(** ** Query engine: the filters *)

Section Filters.

Variable songs : list song.

Lemma filter_filter (p q : song -> bool) (l : list song) :
  List.filter q (List.filter p l) = List.filter (fun s => p s && q s) l.
Proof.
  induction l as [| x r IH]; [reflexivity |].
  cbn [List.filter]. destruct (p x) eqn:Hp; cbn; [| exact IH].
  destruct (q x); now rewrite IH.
Qed.

Lemma contents_comprehension c p out :
  contents songs (comprehension c p songs out) =
  List.filter (guard c p) (contents songs out).
Proof.
  unfold comprehension, guard. destruct c; [reflexivity |].
  symmetry. apply filter_true.
Qed.

Lemma is_new_comprehension c p out :
  is_new (comprehension c p songs out) = c || is_new out.
Proof. unfold comprehension. now destruct c. Qed.

Lemma binding_eta (b : binding) :
  b = if is_new b then NewList (contents songs b) else CallerList.
Proof. now destruct b. Qed.

Variables mood language q : option string.
Variables energy_min energy_max : option Z.

(** The filters keep the records that pass, in the order of the input. *)
Lemma contents_apply_filters :
  contents songs (apply_filters songs mood language q energy_min energy_max) =
  List.filter (passes mood language q energy_min energy_max) songs.
Proof.
  unfold apply_filters.
  rewrite !contents_comprehension. cbn [contents].
  rewrite !filter_filter. apply filter_ext. intros s. unfold passes.
  now rewrite !andb_assoc.
Qed.

Lemma is_new_apply_filters :
  is_new (apply_filters songs mood language q energy_min energy_max) =
  some_filter_given mood language q energy_min energy_max.
Proof.
  unfold apply_filters, some_filter_given.
  rewrite !is_new_comprehension. cbn [is_new].
  destruct (PyStr.truthy mood), (PyStr.truthy language && _), (PyStr.truthy q),
    (bool_decide (is_Some energy_min)), (bool_decide (is_Some energy_max)); reflexivity.
Qed.

(** With no filter given every record passes. *)
Lemma passes_no_filter s :
  some_filter_given mood language q energy_min energy_max = false ->
  passes mood language q energy_min energy_max s = true.
Proof.
  unfold some_filter_given, passes, guard.
  destruct (PyStr.truthy mood), (PyStr.truthy language && _), (PyStr.truthy q),
    (bool_decide (is_Some energy_min)), (bool_decide (is_Some energy_max));
    cbn; congruence.
Qed.

(** [filter_songs] in one equation: the object returned and the caller's
    list after the call. *)
Lemma filter_songs_unfold :
  filter_songs songs mood language q energy_min energy_max =
  if some_filter_given mood language q energy_min energy_max
  then Outcome
         (NewList (list_sort (high_energy_mood mood)
                     (List.filter (passes mood language q energy_min energy_max) songs)))
         songs
  else Outcome CallerList (list_sort (high_energy_mood mood) songs).
Proof.
  unfold filter_songs.
  rewrite (binding_eta (apply_filters songs mood language q energy_min energy_max)).
  rewrite is_new_apply_filters, contents_apply_filters.
  now destruct (some_filter_given mood language q energy_min energy_max).
Qed.

(** The list returned: the records that pass, sorted. *)
Lemma value_filter_songs :
  value (filter_songs songs mood language q energy_min energy_max) =
  list_sort (high_energy_mood mood)
    (List.filter (passes mood language q energy_min energy_max) songs).
Proof.
  rewrite filter_songs_unfold.
  destruct (some_filter_given mood language q energy_min energy_max) eqn:Hg;
    [reflexivity |].
  cbn. f_equal. symmetry. apply forallb_filter_id.
  apply forallb_forall. intros s _. now apply passes_no_filter.
Qed.

End Filters.

(** ** Query engine: the claims *)

Lemma high_energy_mood_true mood :
  high_energy_mood mood = true <-> mood = Some "Energetic" \/ mood = Some "Happy".
Proof.
  unfold high_energy_mood, str_in. destruct mood as [m |]; cbn.
  - rewrite orb_false_r, orb_true_iff, !String.eqb_eq.
    split; [intros [-> | ->]; auto | intros [[= ->] | [= ->]]; auto].
  - split; [discriminate | intros [? | ?]; discriminate].
Qed.

(** With a filter given the caller's list is left alone and a new list is
    returned. *)
Lemma filter_songs_frame songs mood language q energy_min energy_max :
  some_filter_given mood language q energy_min energy_max = true ->
  let o := filter_songs songs mood language q energy_min energy_max in
  caller_list o = songs /\ is_new (returned o) = true.
Proof. intros Hg. cbn. rewrite filter_songs_unfold, Hg. now split. Qed.

(** In every case the caller's list keeps its records. *)
Lemma filter_songs_caller_perm songs mood language q energy_min energy_max :
  Permutation songs (caller_list (filter_songs songs mood language q energy_min energy_max)).
Proof.
  rewrite filter_songs_unfold.
  destruct (some_filter_given mood language q energy_min energy_max); cbn;
    [reflexivity | apply list_sort_perm].
Qed.

(** C1. Called with no filter argument on a list that is not sorted,
    [filter_songs] returns the caller's own list object and leaves that list
    reordered: here the two tracks come back swapped. *)
Theorem filter_songs_sorts_caller_list :
  let o := filter_songs two_tracks None None None None None in
  returned o = CallerList /\
  caller_list o = rev two_tracks /\
  caller_list o <> two_tracks.
Proof. cbn. repeat split. discriminate. Qed.

(** C4. The list [filter_songs] returns is sorted by energy, descending when
    the mood given is "Energetic" or "Happy" and ascending otherwise (also
    with no mood); it holds exactly the records that pass the filters, and
    records of equal energy keep the order they have in the filtered input. *)
Theorem filter_songs_sorted_stable
    (songs : list song) (mood language q : option string) (energy_min energy_max : option Z) :
  let out := value (filter_songs songs mood language q energy_min energy_max) in
  let kept := List.filter (passes mood language q energy_min energy_max) songs in
  (mood = Some "Energetic" \/ mood = Some "Happy" -> descending out) /\
  (mood <> Some "Energetic" /\ mood <> Some "Happy" -> ascending out) /\
  Permutation kept out /\
  (forall e, with_energy e out = with_energy e kept).
Proof.
  cbn zeta. rewrite value_filter_songs.
  pose proof (list_sort_sorted (high_energy_mood mood)
                (List.filter (passes mood language q energy_min energy_max) songs)) as Hs.
  repeat split.
  - intros Hm. apply high_energy_mood_true in Hm. rewrite Hm in *. exact Hs.
  - intros [H1 H2]. destruct (high_energy_mood mood) eqn:Hm; [| exact Hs].
    apply high_energy_mood_true in Hm. tauto.
  - apply list_sort_perm.
  - intros e. apply list_sort_stable.
Qed.

Lemma filter_songs_sorted_stable_witness :
  descending (value (filter_songs two_tracks (Some "Happy") None None None None)) /\
  ascending (value (filter_songs two_tracks (Some "Calm") None None None None)).
Proof.
  split.
  - apply (filter_songs_sorted_stable two_tracks (Some "Happy") None None None None).
    right; reflexivity.
  - apply (filter_songs_sorted_stable two_tracks (Some "Calm") None None None None).
    split; discriminate.
Defined.

(** C9. [filter_songs] with mood "happy" and with mood "HAPPY" gives the same
    outcome on every list, whatever the other arguments; and a second call
    with the same arguments, on the list as the first call left it, returns
    the same list in the same order and changes nothing. *)
Theorem filter_songs_case_insensitive_pure :
  (forall songs language q energy_min energy_max,
     filter_songs songs (Some "happy") language q energy_min energy_max =
     filter_songs songs (Some "HAPPY") language q energy_min energy_max) /\
  (forall songs mood language q energy_min energy_max,
     let first := filter_songs songs mood language q energy_min energy_max in
     let second := filter_songs (caller_list first) mood language q energy_min energy_max in
     value second = value first /\ caller_list second = caller_list first).
Proof.
  split.
  - intros. rewrite !filter_songs_unfold. reflexivity.
  - intros songs mood language q energy_min energy_max first second.
    subst first second. rewrite !value_filter_songs.
    rewrite !filter_songs_unfold.
    destruct (some_filter_given mood language q energy_min energy_max) eqn:Hg; cbn.
    + now split.
    + rewrite !(forallb_filter_id (passes mood language q energy_min energy_max))
        by (apply forallb_forall; intros s _; now apply passes_no_filter).
      now rewrite list_sort_idem.
Qed.

(** C10. Only the exact spelling "Any" switches the language filter off.  A
    language argument in another casing of that word is compared, lower-cased,
    with the lower-cased language of each record: the list returned holds
    exactly those records of the unfiltered answer whose language is the word
    "any" in some casing. *)
Theorem any_sentinel_case_sensitive :
  (forall songs mood q energy_min energy_max,
     filter_songs songs mood (Some "Any") q energy_min energy_max =
     filter_songs songs mood None q energy_min energy_max) /\
  (forall lang, lang <> "Any" -> PyStr.lower lang = "any" ->
     forall songs mood q energy_min energy_max s,
       In s (value (filter_songs songs mood (Some lang) q energy_min energy_max)) <->
       In s (value (filter_songs songs mood None q energy_min energy_max)) /\
       PyStr.lower (language s) = "any").
Proof.
  split.
  - intros. rewrite !filter_songs_unfold. reflexivity.
  - intros lang Hne Hlow songs mood q energy_min energy_max s.
    rewrite !value_filter_songs.
    assert (Hin : forall rv (l : list song), In s (list_sort rv l) <-> In s l).
    { intros rv l. split; apply Permutation_in;
        [symmetry |]; apply list_sort_perm. }
    rewrite !Hin, !filter_In. unfold passes.
    assert (Hg : PyStr.truthy (Some lang) && negb (String.eqb (default "" (Some lang)) "Any")
                 = true).
    { apply andb_true_iff. split.
      - destruct lang; [discriminate | reflexivity].
      - apply negb_true_iff, String.eqb_neq. exact Hne. }
    rewrite Hg. change (default "" (Some lang)) with lang.
    cbn [guard]. unfold language_matches. rewrite Hlow.
    rewrite !andb_true_iff, String.eqb_eq. tauto.
Qed.

Lemma any_sentinel_case_sensitive_witness :
  "ANY" <> "Any" /\ PyStr.lower "ANY" = "any" /\
  In (Song "One" "Various" "Calm" 2 "any" "")
     (value (filter_songs sentinel_tracks None (Some "ANY") None None None)).
Proof.
  split; [discriminate |]. split; [reflexivity |].
  apply (proj2 any_sentinel_case_sensitive "ANY"); [discriminate | reflexivity |].
  split; [vm_compute; auto | reflexivity].
Defined.

(** ** The recommendation request *)

Lemma int_or_none_malformed v : malformed v <-> int_or_none v = None.
Proof.
  unfold malformed, int_or_none. destruct (PyStr.truthy v).
  - destruct (PyStr.int (default "" v)); split; try tauto; try discriminate.
    intros [_ ?]; discriminate.
  - split; [intros [? _] |]; discriminate.
Qed.

Lemma int_or_none_bound v : ~ malformed v -> int_or_none v = Some (bound_of v).
Proof.
  rewrite int_or_none_malformed. unfold int_or_none, bound_of.
  destruct (PyStr.truthy v); [| reflexivity].
  destruct (PyStr.int (default "" v)); [reflexivity | congruence].
Qed.

Lemma parse_bounds_malformed emin emax :
  malformed emin \/ malformed emax -> parse_bounds emin emax = (None, None).
Proof.
  rewrite !int_or_none_malformed. unfold parse_bounds.
  intros [-> | ->]; [reflexivity |]. now destruct (int_or_none emin).
Qed.

Lemma parse_bounds_well_formed emin emax :
  ~ malformed emin -> ~ malformed emax ->
  parse_bounds emin emax = (bound_of emin, bound_of emax).
Proof.
  intros H1 H2. unfold parse_bounds.
  now rewrite (int_or_none_bound _ H1), (int_or_none_bound _ H2).
Qed.

(** C8, as the code has it: a request with a malformed [emin] and the valid
    [emax] 2 still returns a track of energy 5, which the same request
    without [emin] leaves out. *)
Lemma malformed_emin_disables_emax :
  malformed (bad_emin_request !! "emin") /\
  home_rows bad_emin_request two_tracks <> home_rows (delete "emin" bad_emin_request) two_tracks.
Proof. split; [split; reflexivity |]. vm_compute. discriminate. Qed.

(** C8, amended. No value of [emin] or [emax] makes the request fail.  When
    one of them is malformed both bounds are dropped: the answer is that of
    the request with neither [emin] nor [emax].  When none is malformed, each
    bound that is given is applied. *)
Theorem malformed_bound_drops_both (args : gmap string string) (songs : list song) :
  (malformed (args !! "emin") \/ malformed (args !! "emax") ->
   home_rows args songs = home_rows (delete "emin" (delete "emax" args)) songs) /\
  (~ malformed (args !! "emin") -> ~ malformed (args !! "emax") ->
   home_rows args songs =
   if PyStr.truthy (args !! "mood")
   then take 100 (value (filter_songs songs (args !! "mood") (args !! "language")
                           (args !! "q") (bound_of (args !! "emin"))
                           (bound_of (args !! "emax"))))
   else []).
Proof.
  split.
  - intros Hbad.
    set (args' := delete "emin" (delete "emax" args)).
    assert (Hkeep : forall k, k <> "emin" -> k <> "emax" -> args' !! k = args !! k).
    { intros k H1 H2. subst args'. now rewrite !lookup_delete_ne. }
    assert (Hemin : args' !! "emin" = None) by apply lookup_delete_eq.
    assert (Hemax : args' !! "emax" = None).
    { subst args'. rewrite lookup_delete_ne by discriminate. apply lookup_delete_eq. }
    unfold home_rows.
    rewrite Hemin, Hemax, !Hkeep by discriminate.
    now rewrite (parse_bounds_malformed _ _ Hbad).
  - intros H1 H2. unfold home_rows. now rewrite parse_bounds_well_formed.
Qed.

Lemma malformed_bound_drops_both_witness :
  home_rows bad_emin_request two_tracks =
  home_rows (delete "emin" (delete "emax" bad_emin_request)) two_tracks.
Proof.
  apply (proj1 (malformed_bound_drops_both bad_emin_request two_tracks)).
  left. split; reflexivity.
Defined.

(** ** Adding a song *)

Lemma str_in_In x l : str_in x l = true <-> In x l.
Proof.
  unfold str_in. rewrite existsb_exists. split.
  - intros (y & Hy & E). apply String.eqb_eq in E. now subst.
  - intros H. exists x. split; [assumption | apply String.eqb_refl].
Qed.

Lemma nonempty_false s : PyStr.nonempty s = false <-> s = "".
Proof. destruct s; cbn; split; congruence. Qed.

(** C7. A submission whose stripped title is empty, or whose mood, stripped
    and capitalized, is not one of the tracked moods, is answered by a
    redirect to the form with a notice, and the store is left exactly as it
    was: nothing is appended, nothing is created. *)
Theorem add_song_rejects_invalid (form : gmap string string) (st : store) :
  PyStr.strip (PyStr.or_default (form !! "title") "") = "" \/
  ~ In (PyStr.capitalize (PyStr.strip (PyStr.or_default (form !! "mood") ""))) MOODS ->
  add_song POST form st = (st, RedirectAddSong "Please provide a valid Title and Mood.").
Proof.
  intros Hbad. unfold add_song.
  set (t := PyStr.strip (PyStr.or_default (form !! "title") "")) in *.
  set (m := PyStr.capitalize (PyStr.strip (PyStr.or_default (form !! "mood") ""))) in *.
  destruct Hbad as [Ht | Hm].
  - apply nonempty_false in Ht. now rewrite Ht.
  - destruct (str_in m MOODS) eqn:E.
    + apply str_in_In in E. contradiction.
    + now rewrite !orb_true_r.
Qed.

Lemma add_song_rejects_invalid_witness :
  add_song POST untitled_form (Present [HEADER]) =
  (Present [HEADER], RedirectAddSong "Please provide a valid Title and Mood.").
Proof.
  apply (add_song_rejects_invalid untitled_form (Present [HEADER])).
  left. reflexivity.
Defined.

(** ** Record store: counting *)

Section Counting.




Lemma dict_reader_header (rows : list csv_row) :
  dict_reader (HEADER :: rows) =
  map (fun r => zip_row HEADER r ∅) (List.filter (fun r => negb (is_blank_row r)) rows).
Proof. reflexivity. Qed.








End Counting.

(** ** Record store: [ensure_dataset] *)

Section Coverage.

Variable min_per_language : Z.


Lemma flat_map_nil {A B} (f : A -> list B) (l : list A) :
  (forall a, In a l -> f a = []) -> flat_map f l = [].
Proof.
  induction l as [| a l IH]; intros H; [reflexivity |].
  cbn. rewrite (H a) by now left. apply IH. intros; apply H. now right.
Qed.


Lemma ensure_dataset_present (lines : list csv_row) :
  ensure_dataset min_per_language (Present lines) =
  Present (lines ++ map writerow (top_up min_per_language (language_counts lines))).
Proof.
  unfold ensure_dataset.
  destruct (top_up min_per_language (language_counts lines));
    [now rewrite app_nil_r | reflexivity].
Qed.







End Coverage.




(** ** Record store: [load_songs] *)

(** C3, as the code has it: loading from a missing store creates the
    catalog. *)
Lemma load_songs_writes_missing_store :
  fst (load_songs Absent) = create_dataset 20 /\ fst (load_songs Absent) <> Absent.
Proof. split; [reflexivity | discriminate]. Qed.

Lemma top_up_counted (lines : list csv_row) (m : Z) :
  (forall lang, In lang LANGUAGES -> m <= counted lang (Present lines)) ->
  top_up m (language_counts lines) = [].
Proof.
  intros Hc. unfold top_up. apply flat_map_nil. intros lang Hl.
  specialize (Hc lang Hl). cbn [counted] in Hc.
  destruct (Z.ltb_spec (default 0 (language_counts lines !! lang)) m); [lia | reflexivity].
Qed.

(** C3, amended. [load_songs] writes what [ensure_dataset(20)] writes and
    nothing else: the store it leaves is the store after that call.  It
    leaves the store exactly as it was when the count [ensure_dataset] makes
    is at least 20 for every tracked language. *)
Theorem load_songs_store (st : store) :
  fst (load_songs st) = ensure_dataset 20 st /\
  ((forall lang, In lang LANGUAGES -> 20 <= counted lang st) -> fst (load_songs st) = st).
Proof.
  split; [reflexivity |]. intros Hc. cbn [load_songs fst].
  destruct st as [| | lines].
  - specialize (Hc "English" (or_introl eq_refl)). cbn in Hc. lia.
  - specialize (Hc "English" (or_introl eq_refl)). cbn in Hc. lia.
  - rewrite ensure_dataset_present, (top_up_counted lines 20 Hc). cbn [map].
    now rewrite app_nil_r.
Qed.

Lemma load_songs_store_witness :
  (forall lang, In lang LANGUAGES -> 20 <= counted lang (create_dataset 20)) /\
  fst (load_songs (create_dataset 20)) = create_dataset 20.
Proof.
  assert (Hc : forall lang, In lang LANGUAGES -> 20 <= counted lang (create_dataset 20)).
  { intros lang [<- | [<- | [<- | [<- | [<- | []]]]]]; vm_compute; discriminate. }
  split; [exact Hc |].
  exact (proj2 (load_songs_store (create_dataset 20)) Hc).
Defined.

Lemma parse_energy_value (d : gmap string pyval) :
  d !! "energy" <> Some PNone -> parse_energy d = Ok (energy_value d).
Proof.
  unfold parse_energy, energy_value.
  destruct (d !! "energy") as [[| s | z] |]; intros H; try reflexivity. contradiction.
Qed.

(** The loop of [load_songs] when every kept row has an energy value. *)
Lemma load_loop_repairs (rows songs : list (gmap string pyval)) :
  Forall (fun d => d !! "energy" <> Some PNone) (List.filter kept rows) ->
  load_loop rows songs =
  Ok (songs ++ map (fun d => <["energy" := PInt (energy_value d)]> d) (List.filter kept rows)).
Proof.
  revert songs. induction rows as [| d rows IH]; intros songs Hall; cbn [load_loop].
  - cbn. now rewrite app_nil_r.
  - cbn [List.filter] in *. unfold kept at 1. unfold kept at 1 in Hall.
    destruct (py_truthy (d !! "title")); cbn [negb andb orb] in *;
      [| now apply IH].
    destruct (py_truthy (d !! "mood")); cbn [negb andb orb] in *;
      [| now apply IH].
    apply Forall_cons in Hall. destruct Hall as [Hd Hall].
    rewrite (parse_energy_value d Hd). cbn [bind].
    rewrite IH by assumption. cbn [map]. now rewrite <- app_assoc.
Qed.

(** A row too short for the energy column makes [load_songs] raise. *)
Lemma load_songs_short_row :
  snd (load_songs (Present [HEADER; ["Untimed"; "Nobody"; "Calm"]])) = Raise TypeError.
Proof. vm_compute. reflexivity. Qed.

(** C2, as the code has it: a stored energy of 9 is returned as 9. *)
Lemma load_songs_keeps_energy_out_of_range :
  exists songs r,
    snd (load_songs loud_catalog) = Ok songs /\
    songs !! 0%nat = Some r /\
    r !! "title" = Some (PStr "Too Loud") /\
    r !! "energy" = Some (PInt 9).
Proof.
  assert (H : match snd (load_songs loud_catalog) with
              | Ok (r :: _) =>
                  r !! "title" = Some (PStr "Too Loud") /\ r !! "energy" = Some (PInt 9)
              | _ => False
              end) by (vm_compute; split; reflexivity).
  destruct (snd (load_songs loud_catalog)) as [[| r songs] | e]; try contradiction.
  exists (r :: songs), r. tauto.
Qed.

(** C2, amended. When every stored row with a title and a mood has an energy
    value, [load_songs] returns one record for each of these rows, in order:
    the row with its energy replaced by an integer, which is the integer the
    stored text denotes, whatever its size, and 3 when the text is no integer
    literal.  So a row whose energy does not parse is kept, with energy 3,
    and the energy returned is between 1 and 5 when the stored text denotes
    such an integer or does not parse. *)
Theorem load_songs_repairs_energy (st : store) :
  let rows := List.filter kept (stored_rows (fst (load_songs st))) in
  Forall (fun d => d !! "energy" <> Some PNone) rows ->
  exists songs,
    snd (load_songs st) = Ok songs /\
    Forall2
      (fun d r =>
         r = <["energy" := PInt (energy_value d)]> d /\
         r !! "energy" = Some (PInt (energy_value d)) /\
         (forall s, d !! "energy" = Some (PStr s) ->
            match PyStr.int s with
            | Some z => energy_value d = z
            | None => energy_value d = 3
            end))
      rows songs.
Proof.
  intros rows Hall. subst rows. cbn [load_songs fst snd] in *.
  assert (Hp : exists lines, ensure_dataset 20 st = Present lines).
  { destruct st as [| | lines0];
      [eexists; reflexivity | eexists; reflexivity |].
    rewrite ensure_dataset_present. eauto. }
  destruct Hp as [lines Hp]. rewrite Hp in *. cbn [read_lines bind stored_rows] in *.
  rewrite (load_loop_repairs _ [] Hall). cbn [app].
  eexists. split; [reflexivity |].
  apply Forall2_fmap_r, Forall_Forall2_diag, List.Forall_forall.
  intros d _. repeat split.
  - apply lookup_insert_eq.
  - intros s Hs. unfold energy_value. rewrite Hs. now destruct (PyStr.int s).
Qed.

Lemma zip_row_energy (r : csv_row) :
  zip_row HEADER r ∅ !! "energy" = Some (from_option PStr PNone (r !! 3%nat)).
Proof.
  destruct r as [| a [| b [| c [| d [| e [| f r']]]]]]; vm_compute; reflexivity.
Qed.

(** Under the header row, rows of four columns or more all have an energy
    value. *)
Lemma dict_reader_energy (rows : list csv_row) :
  forallb (fun r => is_blank_row r || (4 <=? length r)%nat) rows = true ->
  Forall (fun d => d !! "energy" <> Some PNone) (dict_reader (HEADER :: rows)).
Proof.
  intros Hrows. rewrite dict_reader_header. apply List.Forall_forall. intros d Hd.
  apply in_map_iff in Hd. destruct Hd as (r & <- & Hr).
  apply filter_In in Hr. destruct Hr as [Hr Hnb].
  rewrite forallb_forall in Hrows. specialize (Hrows r Hr).
  rewrite zip_row_energy.
  destruct (is_blank_row r); [discriminate |]. cbn [orb] in Hrows.
  apply Nat.leb_le in Hrows.
  destruct (r !! 3%nat) as [v |] eqn:Hv; [discriminate |].
  apply lookup_ge_None in Hv. lia.
Qed.

Lemma load_songs_repairs_energy_witness :
  exists songs,
    snd (load_songs loud_catalog) = Ok songs /\
    Forall2
      (fun d r =>
         r = <["energy" := PInt (energy_value d)]> d /\
         r !! "energy" = Some (PInt (energy_value d)) /\
         (forall s, d !! "energy" = Some (PStr s) ->
            match PyStr.int s with
            | Some z => energy_value d = z
            | None => energy_value d = 3
            end))
      (List.filter kept (stored_rows (fst (load_songs loud_catalog)))) songs.
Proof.
  apply (load_songs_repairs_energy loud_catalog).
  apply List.Forall_forall. intros d Hd. apply filter_In in Hd. destruct Hd as [Hd _].
  revert d Hd. apply List.Forall_forall.
  assert (Hst : exists rows,
             fst (load_songs loud_catalog) = Present (HEADER :: rows) /\
             forallb (fun r => is_blank_row r || (4 <=? length r)%nat) rows = true).
  { eexists. split; [vm_compute; reflexivity | vm_compute; reflexivity]. }
  destruct Hst as (rows & -> & Hrows). now apply dict_reader_energy.
Defined.

(** * Further properties *)

(** ** Integers written and read back *)

Section Numerals.

Lemma lstrip_no_space s :
  all_chars (fun c => negb (PyStr.is_space c)) s = true -> PyStr.lstrip s = s.
Proof.
  destruct s as [| c r]; cbn; [reflexivity |].
  intros H. apply andb_true_iff in H. destruct H as [H _].
  apply negb_true_iff in H. now rewrite H.
Qed.

Lemma rstrip_no_space s :
  all_chars (fun c => negb (PyStr.is_space c)) s = true -> PyStr.rstrip s = s.
Proof.
  induction s as [| c r IH]; cbn [all_chars PyStr.rstrip]; [reflexivity |].
  intros H. apply andb_true_iff in H. destruct H as [Hc Hr].
  apply negb_true_iff in Hc. rewrite (IH Hr), Hc. now destruct r.
Qed.

Lemma strip_no_space s :
  all_chars (fun c => negb (PyStr.is_space c)) s = true -> PyStr.strip s = s.
Proof.
  intros H. unfold PyStr.strip. rewrite (lstrip_no_space s H). now apply rstrip_no_space.
Qed.

Lemma numeral_no_space d :
  all_chars (fun c => negb (PyStr.is_space c)) (NilEmpty.string_of_uint d) = true.
Proof. induction d; cbn [NilEmpty.string_of_uint all_chars]; try rewrite IHd; reflexivity. Qed.

Lemma numeral_no_space_cons c d :
  PyStr.is_space c = false ->
  all_chars (fun c => negb (PyStr.is_space c)) (String c (NilEmpty.string_of_uint d)) = true.
Proof.
  intros Hc. change (negb (PyStr.is_space c) &&
    all_chars (fun c => negb (PyStr.is_space c)) (NilEmpty.string_of_uint d) = true).
  now rewrite Hc, numeral_no_space.
Qed.

Lemma digits_numeral d acc :
  PyStr.digits (NilEmpty.string_of_uint d) acc true = Some (decimal_value d acc).
Proof.
  revert acc. induction d; intros acc; cbn [NilEmpty.string_of_uint decimal_value];
    [reflexivity | ..]; cbn [PyStr.digits]; apply IHd.
Qed.

Lemma digits_numeral_first d acc :
  d <> Decimal.Nil ->
  PyStr.digits (NilEmpty.string_of_uint d) acc false = Some (decimal_value d acc).
Proof.
  intros Hd. rewrite <- digits_numeral. destruct d; [contradiction | ..]; reflexivity.
Qed.

Lemma decimal_value_acc l p : Z.pos (Pos.of_uint_acc l p) = decimal_value l (Z.pos p).
Proof.
  revert p. induction l; intros p; cbn [Pos.of_uint_acc decimal_value];
    [reflexivity | ..]; rewrite IHl; f_equal; lia.
Qed.

Lemma decimal_value_of_uint d : Z.of_N (Pos.of_uint d) = decimal_value d 0.
Proof.
  induction d; cbn [Pos.of_uint decimal_value]; [reflexivity | exact IHd | ..];
    cbn [Z.of_N]; apply decimal_value_acc.
Qed.

Lemma to_uint_not_nil p : Pos.to_uint p <> Decimal.Nil.
Proof.
  intros H. pose proof (DecimalPos.Unsigned.of_to p) as E. rewrite H in E. discriminate.
Qed.

Lemma numeral_of_pos p :
  NilZero.string_of_uint (Pos.to_uint p) = NilEmpty.string_of_uint (Pos.to_uint p).
Proof.
  pose proof (to_uint_not_nil p). now destruct (Pos.to_uint p).
Qed.

Lemma decimal_value_to_uint p : decimal_value (Pos.to_uint p) 0 = Z.pos p.
Proof.
  now rewrite <- decimal_value_of_uint, DecimalPos.Unsigned.of_to.
Qed.

(** What [str] writes for an integer, [int] reads back as that integer. *)
Lemma int_str_of_int z : PyStr.int (PyStr.str_of_int z) = Some z.
Proof.
  unfold PyStr.int, PyStr.str_of_int, NilZero.string_of_int.
  destruct z as [| p | p]; cbn [Z.to_int]; [reflexivity | |].
  - rewrite numeral_of_pos, strip_no_space by apply numeral_no_space.
    pose proof (to_uint_not_nil p) as Hn.
    rewrite <- decimal_value_to_uint, <- (digits_numeral_first _ 0 Hn).
    destruct (Pos.to_uint p); [contradiction | ..]; reflexivity.
  - rewrite numeral_of_pos.
    rewrite strip_no_space by now apply numeral_no_space_cons.
    rewrite (digits_numeral_first _ 0 (to_uint_not_nil p)), decimal_value_to_uint.
    reflexivity.
Qed.

(** The padded index of a generated title reads back too. *)
Lemma int_fmt_02d z : 0 <= z -> PyStr.int (PyStr.fmt_02d z) = Some z.
Proof.
  intros Hz. unfold PyStr.fmt_02d.
  destruct (String.length (PyStr.str_of_int z) <? 2)%nat; [| apply int_str_of_int].
  unfold PyStr.str_of_int, NilZero.string_of_int.
  destruct z as [| p | p]; cbn [Z.to_int]; [reflexivity | | lia].
  rewrite numeral_of_pos. unfold PyStr.int.
  change ("0" ++ NilEmpty.string_of_uint (Pos.to_uint p))%string
    with (String "0" (NilEmpty.string_of_uint (Pos.to_uint p))).
  rewrite strip_no_space by now apply numeral_no_space_cons.
  cbn [PyStr.digits]. change (PyStr.is_digit "0") with true. cbn match.
  change (10 * 0 + Z.of_N (PyStr.code "0" - 48)) with 0.
  now rewrite digits_numeral, decimal_value_to_uint.
Qed.

End Numerals.

(** ** The search link *)

Lemma all_chars_app p s t : all_chars p (s ++ t)%string = all_chars p s && all_chars p t.
Proof.
  induction s as [| c r IH]; simpl; [reflexivity |].
  now rewrite IH, andb_assoc.
Qed.

Lemma quote_plus_char c r :
  PyStr.quote_plus (String c r) = (PyStr.quote_plus (String c "") ++ PyStr.quote_plus r)%string.
Proof.
  cbn [PyStr.quote_plus].
  destruct (PyStr.is_unreserved c); [reflexivity |].
  destruct (PyStr.code c =? 32)%N; reflexivity.
Qed.

Lemma quote_plus_char_safe c : all_chars url_safe (PyStr.quote_plus (String c "")) = true.
Proof. destruct c as [[] [] [] [] [] [] [] []]; reflexivity. Qed.

Lemma quote_plus_safe s : all_chars url_safe (PyStr.quote_plus s) = true.
Proof.
  induction s as [| c r IH]; [reflexivity |].
  now rewrite quote_plus_char, all_chars_app, quote_plus_char_safe, IH.
Qed.

(** X1. The search link is the fixed address followed by a query in which every
    character is a letter, a digit, one of [_ . - ~], a plus sign or a
    percent sign: whatever the parts hold, no blank, quote, ampersand or
    other reserved character reaches the link. *)
Theorem youtube_search_link_safe (parts : list string) :
  exists query,
    youtube_search_link parts =
      ("https://www.youtube.com/results?search_query=" ++ query)%string /\
    all_chars url_safe query = true.
Proof. eexists. split; [reflexivity | apply quote_plus_safe]. Qed.

(** ** Generated rows *)

Lemma In_range lo hi i : In i (range lo hi) -> lo <= i < hi.
Proof.
  unfold range. intros H. apply in_map_iff in H. destruct H as (k & <- & Hk).
  apply in_seq in Hk. lia.
Qed.

Lemma NoDup_range lo hi : NoDup (range lo hi).
Proof.
  unfold range. apply NoDup_fmap_2; [| apply NoDup_seq].
  intros a b H. lia.
Qed.

Lemma In_generate lang n r :
  In r (generate_language_rows lang n) ->
  exists i, 1 <= i <= n /\ r = generated_row lang i.
Proof.
  unfold generate_language_rows. intros H. apply in_map_iff in H.
  destruct H as (i & <- & Hi). apply In_range in Hi. exists i. split; [lia | reflexivity].
Qed.

Lemma mood_index_cases i :
  (i - 1) mod 5 = 0 \/ (i - 1) mod 5 = 1 \/ (i - 1) mod 5 = 2 \/
  (i - 1) mod 5 = 3 \/ (i - 1) mod 5 = 4.
Proof. pose proof (Z.mod_pos_bound (i - 1) 5). lia. Qed.

(** X2. Every generated row is fit for the catalog and carries the language it
    was generated for, the artist "Various" and the search link of its
    language and mood. *)
Theorem generated_rows_valid (lang : string) (n : Z) (r : song) :
  In r (generate_language_rows lang n) ->
  valid_row r /\ language r = lang /\ artist r = "Various" /\
  link r = youtube_search_link [lang; mood r; "song"].
Proof.
  intros H. apply In_generate in H. destruct H as (i & Hi & ->).
  unfold valid_row, generated_row; cbn [title mood energy language artist link].
  change (Z.of_nat (length MOODS)) with 5.
  repeat split.
  - destruct lang; discriminate.
  - destruct (mood_index_cases i) as [-> | [-> | [-> | [-> | ->]]]]; cbn; tauto.
  - pose proof (Z.mod_pos_bound i 5). lia.
  - pose proof (Z.mod_pos_bound i 5). lia.
  - discriminate.
Qed.

Lemma generated_rows_valid_witness :
  valid_row (generated_row "Hindi" 3) /\ language (generated_row "Hindi" 3) = "Hindi".
Proof.
  assert (H : In (generated_row "Hindi" 3) (generate_language_rows "Hindi" 4))
    by (vm_compute; tauto).
  split; apply (generated_rows_valid "Hindi" 4 _ H).
Defined.

(** X3. The two cycles of the generator run in step: a generated row's energy is
    fixed by its mood, 2 for Happy, 3 for Sad, 4 for Energetic, 5 for Calm
    and 1 for Focus. *)
Theorem generated_energy_by_mood (lang : string) (n : Z) (r : song) :
  In r (generate_language_rows lang n) -> energy r = energy_of_mood (mood r).
Proof.
  intros H. apply In_generate in H. destruct H as (i & Hi & ->).
  unfold generated_row; cbn [mood energy].
  change (Z.of_nat (length MOODS)) with 5.
  destruct (mood_index_cases i) as [E | [E | [E | [E | E]]]]; rewrite E;
    match goal with
    | |- _ = ?rhs => let v := eval vm_compute in rhs in change rhs with v
    end; Z.div_mod_to_equations; lia.
Qed.

Lemma generated_energy_by_mood_witness :
  energy (generated_row "Tamil" 4) = energy_of_mood (mood (generated_row "Tamil" 4)).
Proof.
  apply (generated_energy_by_mood "Tamil" 5). vm_compute. tauto.
Defined.

Lemma append_inv_head (s a b : string) : (s ++ a = s ++ b)%string -> a = b.
Proof. induction s as [| c r IH]; cbn; [tauto |]. intros [= H]. now apply IH. Qed.

Lemma generated_title_inj lang i j :
  0 <= i -> 0 <= j ->
  title (generated_row lang i) = title (generated_row lang j) -> i = j.
Proof.
  intros Hi Hj. unfold generated_row; cbn [title].
  change (Z.of_nat (length MOODS)) with 5.
  intros H. apply append_inv_head in H. cbn [append] in H. injection H as H.
  assert (Hfmt : PyStr.fmt_02d i = PyStr.fmt_02d j).
  { destruct (mood_index_cases i) as [Ei | [Ei | [Ei | [Ei | Ei]]]];
      destruct (mood_index_cases j) as [Ej | [Ej | [Ej | [Ej | Ej]]]];
      rewrite Ei, Ej in H; cbn in H; try discriminate H;
      injection H as H; exact H. }
  apply (f_equal PyStr.int) in Hfmt. rewrite !int_fmt_02d in Hfmt by assumption.
  now injection Hfmt.
Qed.

(** X4. The titles generated for one language are pairwise different. *)
Theorem generated_titles_distinct (lang : string) (n : Z) :
  NoDup (map title (generate_language_rows lang n)).
Proof.
  unfold generate_language_rows. rewrite map_map.
  apply NoDup_fmap_2_strong; [| apply NoDup_range].
  intros i j Hi Hj. apply list_elem_of_In, In_range in Hi, Hj.
  apply generated_title_inj; lia.
Qed.

(** ** More on the record store *)



Lemma energy_value_written (s : song) :
  energy_value (zip_row HEADER (writerow s) ∅) = energy s.
Proof.
  unfold energy_value. rewrite zip_row_energy. cbn [writerow lookup list_lookup from_option].
  now rewrite int_str_of_int.
Qed.


Lemma ensure_dataset_is_present m st : exists lines, ensure_dataset m st = Present lines.
Proof.
  destruct st as [| | lines]; [eexists; reflexivity | eexists; reflexivity |].
  rewrite ensure_dataset_present. eauto.
Qed.















Lemma load_loop_raises (rows songs : list (gmap string pyval)) :
  Exists (fun d => d !! "energy" = Some PNone) (List.filter kept rows) ->
  load_loop rows songs = Raise TypeError.
Proof.
  revert songs. induction rows as [| d rows IH]; intros songs Hex; cbn [load_loop].
  - cbn in Hex. inversion Hex.
  - cbn [List.filter] in Hex. unfold kept at 1 in Hex.
    destruct (py_truthy (d !! "title")); cbn [negb andb orb] in *; [| now apply IH].
    destruct (py_truthy (d !! "mood")); cbn [negb andb orb] in *; [| now apply IH].
    unfold parse_energy.
    destruct (d !! "energy") as [[| s | z] |] eqn:Ed; cbn [default from_option id bind];
      try reflexivity;
      apply IH; inversion Hex as [? ? Hd | ? ? Htl]; subst;
      solve [ rewrite Ed in Hd; discriminate | assumption ].
Qed.

(** X10. The only failure of [load_songs] is a [TypeError], and it happens exactly
    when some stored row with a title and a mood has [None] for its energy (a
    row shorter than the energy column): one such row makes the whole load
    fail. *)
Theorem load_songs_errors (st : store) :
  let rows := List.filter kept (stored_rows (fst (load_songs st))) in
  (Exists (fun d => d !! "energy" = Some PNone) rows ->
   snd (load_songs st) = Raise TypeError) /\
  (forall e, snd (load_songs st) = Raise e ->
     e = TypeError /\ Exists (fun d => d !! "energy" = Some PNone) rows).
Proof.
  cbn zeta. cbn [load_songs fst snd].
  destruct (ensure_dataset_is_present 20 st) as [lines E]. rewrite E.
  cbn [read_lines bind stored_rows].
  split.
  - apply load_loop_raises.
  - intros e He.
    destruct (Forall_Exists_dec (fun d : gmap string pyval => d !! "energy" <> Some PNone)
                (fun d => d !! "energy" = Some PNone)
                (fun d => match decide (d !! "energy" = Some PNone) with
                          | left H => right H
                          | right H => left H
                          end)
                (List.filter kept (dict_reader lines))) as [Hall | Hex].
    + rewrite (load_loop_repairs _ [] Hall) in He. discriminate.
    + rewrite (load_loop_raises _ [] Hex) in He. injection He as <-. now split.
Qed.

Lemma load_songs_errors_witness :
  snd (load_songs (Present [HEADER; ["Untimed"; "Nobody"; "Calm"]])) = Raise TypeError.
Proof.
  apply (load_songs_errors (Present [HEADER; ["Untimed"; "Nobody"; "Calm"]])).
  assert (Hst : exists rows,
             fst (load_songs (Present [HEADER; ["Untimed"; "Nobody"; "Calm"]]))
             = Present (HEADER :: ["Untimed"; "Nobody"; "Calm"] :: rows)).
  { eexists. vm_compute. reflexivity. }
  destruct Hst as (rows & ->). cbn [stored_rows]. rewrite dict_reader_header.
  cbn [List.filter is_blank_row negb map].
  assert (Hk : kept (zip_row HEADER ["Untimed"; "Nobody"; "Calm"] ∅) = true)
    by (vm_compute; reflexivity).
  rewrite Hk. apply Exists_cons_hd. vm_compute. reflexivity.
Defined.

(** X11. Whatever the store holds, every record [load_songs] returns has a
    non-empty title, a non-empty mood and an integer energy, and there are
    no more records than stored rows. *)
Theorem loaded_records_well_formed (st : store) (songs : list (gmap string pyval)) :
  snd (load_songs st) = Ok songs ->
  Forall (fun r => py_truthy (r !! "title") = true /\
                   py_truthy (r !! "mood") = true /\
                   exists e, r !! "energy" = Some (PInt e)) songs /\
  (length songs <= length (stored_rows (fst (load_songs st))))%nat.
Proof.
  cbn [load_songs fst snd].
  destruct (ensure_dataset_is_present 20 st) as [lines E]. rewrite E.
  cbn [read_lines bind stored_rows]. intros Hok.
  destruct (Forall_Exists_dec (fun d : gmap string pyval => d !! "energy" <> Some PNone)
              (fun d => d !! "energy" = Some PNone)
              (fun d => match decide (d !! "energy" = Some PNone) with
                        | left H => right H
                        | right H => left H
                        end)
              (List.filter kept (dict_reader lines))) as [Hall | Hex].
  - rewrite (load_loop_repairs _ [] Hall) in Hok. injection Hok as <-. cbn [app]. split.
    + apply List.Forall_forall. intros r Hr. apply in_map_iff in Hr.
      destruct Hr as (d & <- & Hd). apply filter_In in Hd. destruct Hd as [_ Hk].
      unfold kept in Hk. apply andb_true_iff in Hk.
      rewrite !lookup_insert_ne by discriminate. rewrite lookup_insert_eq.
      destruct Hk. eauto.
    + rewrite length_map. apply filter_length_le.
  - rewrite (load_loop_raises _ [] Hex) in Hok. discriminate.
Qed.

Lemma loaded_records_well_formed_witness :
  exists songs,
    snd (load_songs loud_catalog) = Ok songs /\
    Forall (fun r => py_truthy (r !! "title") = true /\
                     py_truthy (r !! "mood") = true /\
                     exists e, r !! "energy" = Some (PInt e)) songs.
Proof.
  assert (Hall : Forall (fun d => d !! "energy" <> Some PNone)
            (List.filter kept (stored_rows (fst (load_songs loud_catalog))))).
  { apply List.Forall_forall. intros d Hd. apply filter_In in Hd. destruct Hd as [Hd _].
    revert d Hd. apply List.Forall_forall.
    assert (Hst : exists rows,
               fst (load_songs loud_catalog) = Present (HEADER :: rows) /\
               forallb (fun r => is_blank_row r || (4 <=? length r)%nat) rows = true).
    { eexists. split; [vm_compute; reflexivity | vm_compute; reflexivity]. }
    destruct Hst as (rows & -> & Hrows). now apply dict_reader_energy. }
  cbn [load_songs fst snd] in *.
  destruct (ensure_dataset_is_present 20 loud_catalog) as [lines E]. rewrite E in *.
  cbn [read_lines bind stored_rows] in *.
  pose proof (load_loop_repairs _ [] Hall) as Hok.
  eexists. split; [exact Hok |].
  apply (loaded_records_well_formed loud_catalog).
  cbn [load_songs snd]. rewrite E. exact Hok.
Defined.

(** ** More on the query engine *)

Lemma In_list_sort rv (l : list song) s : In s (list_sort rv l) <-> In s l.
Proof.
  split; apply Permutation_in; [symmetry |]; apply list_sort_perm.
Qed.

(** The list returned holds exactly the records of the input that pass. *)
Lemma In_value_filter_songs songs mood language q energy_min energy_max s :
  In s (value (filter_songs songs mood language q energy_min energy_max)) <->
  In s songs /\ passes mood language q energy_min energy_max s = true.
Proof. now rewrite value_filter_songs, In_list_sort, filter_In. Qed.

(** X12. With both bounds given every record returned has its energy between
    them, both included; when the lower bound exceeds the upper one the
    answer is empty. *)
Theorem filter_songs_energy_bounds
    (songs : list song) (mood language q : option string) (lo hi : Z) :
  let out := value (filter_songs songs mood language q (Some lo) (Some hi)) in
  Forall (fun s => lo <= energy s <= hi) out /\ (hi < lo -> out = []).
Proof.
  cbn zeta.
  assert (Hin : forall s,
            In s (value (filter_songs songs mood language q (Some lo) (Some hi))) ->
            lo <= energy s <= hi).
  { intros s Hs. apply In_value_filter_songs in Hs. destruct Hs as [_ Hp].
    unfold passes in Hp. rewrite !andb_true_iff in Hp.
    destruct Hp as (_ & _ & _ & Hlo & Hhi). cbn in Hlo, Hhi. lia. }
  split.
  - apply List.Forall_forall. exact Hin.
  - intros Hinv.
    destruct (value (filter_songs songs mood language q (Some lo) (Some hi))) as [| s l];
      [reflexivity |].
    specialize (Hin s (or_introl eq_refl)). lia.
Qed.

Lemma filter_songs_energy_bounds_witness :
  value (filter_songs two_tracks None None None (Some 4) (Some 2)) = [].
Proof.
  apply (filter_songs_energy_bounds two_tracks None None None 4 2). lia.
Defined.

(** X13. An empty string for the mood, the language or the query text is handled
    as if the argument were not given. *)
Theorem filter_songs_empty_arguments
    (songs : list song) (mood language q : option string) (energy_min energy_max : option Z) :
  filter_songs songs (Some "") language q energy_min energy_max =
    filter_songs songs None language q energy_min energy_max /\
  filter_songs songs mood (Some "") q energy_min energy_max =
    filter_songs songs mood None q energy_min energy_max /\
  filter_songs songs mood language (Some "") energy_min energy_max =
    filter_songs songs mood language None energy_min energy_max.
Proof. rewrite !filter_songs_unfold. repeat split; reflexivity. Qed.

Lemma lower_nonempty s t :
  PyStr.lower s = PyStr.lower t -> PyStr.nonempty s = PyStr.nonempty t.
Proof. destruct s, t; cbn; congruence. Qed.

(** X14. Matching a mood ignores its casing but the sort direction does not: a
    mood that differs from "Energetic" or "Happy" only in casing selects the
    same records, and returns them ascending where the exact spelling
    returns them descending. *)
Theorem mood_casing_changes_order
    (songs : list song) (m m' : string) (language q : option string)
    (energy_min energy_max : option Z) :
  m = "Energetic" \/ m = "Happy" ->
  PyStr.lower m' = PyStr.lower m -> m' <> m ->
  let exact := value (filter_songs songs (Some m) language q energy_min energy_max) in
  let other := value (filter_songs songs (Some m') language q energy_min energy_max) in
  Permutation exact other /\ descending exact /\ ascending other.
Proof.
  intros Hm Hlow Hne. cbn zeta. rewrite !value_filter_songs.
  assert (Hhigh : high_energy_mood (Some m) = true).
  { apply high_energy_mood_true. destruct Hm as [-> | ->]; auto. }
  assert (Hlow' : high_energy_mood (Some m') = false).
  { destruct (high_energy_mood (Some m')) eqn:E; [| reflexivity].
    apply high_energy_mood_true in E.
    destruct E as [[= ->] | [= ->]], Hm as [-> | ->];
      try contradiction; discriminate Hlow. }
  assert (Hp : List.filter (passes (Some m') language q energy_min energy_max) songs =
               List.filter (passes (Some m) language q energy_min energy_max) songs).
  { apply filter_ext. intros s. unfold passes, mood_matches.
    cbn [PyStr.truthy]. change (default "" (Some m')) with m'.
    change (default "" (Some m)) with m.
    now rewrite Hlow, (lower_nonempty m' m Hlow). }
  rewrite Hp, Hhigh, Hlow'. repeat split.
  - rewrite <- (list_sort_perm true). apply (list_sort_perm false).
  - apply (list_sort_sorted true).
  - apply (list_sort_sorted false).
Qed.

Lemma mood_casing_changes_order_witness :
  descending (value (filter_songs two_tracks (Some "Happy") None None None None)) /\
  ascending (value (filter_songs two_tracks (Some "happy") None None None None)).
Proof.
  apply (mood_casing_changes_order two_tracks "Happy" "happy" None None None None);
    [right; reflexivity | reflexivity | discriminate].
Defined.

(** X15. The query text and the language are matched whatever their casing: two
    query texts, or two languages other than the exact word "Any", that
    agree when lower-cased give the same outcome. *)
Theorem filter_songs_text_casing
    (songs : list song) (mood language q : option string) (energy_min energy_max : option Z)
    (a b : string) :
  PyStr.lower a = PyStr.lower b ->
  filter_songs songs mood language (Some a) energy_min energy_max =
    filter_songs songs mood language (Some b) energy_min energy_max /\
  (a <> "Any" -> b <> "Any" ->
   filter_songs songs mood (Some a) q energy_min energy_max =
     filter_songs songs mood (Some b) q energy_min energy_max).
Proof.
  intros Hlow. pose proof (lower_nonempty a b Hlow) as Hne.
  rewrite !filter_songs_unfold. split.
  - unfold some_filter_given, passes, text_matches. cbn [PyStr.truthy].
    change (default "" (Some a)) with a. change (default "" (Some b)) with b.
    now rewrite Hlow, Hne.
  - intros Ha Hb. unfold some_filter_given, passes, language_matches. cbn [PyStr.truthy].
    change (default "" (Some a)) with a. change (default "" (Some b)) with b.
    apply String.eqb_neq in Ha, Hb. now rewrite Hlow, Hne, Ha, Hb.
Qed.

Lemma filter_songs_text_casing_witness :
  filter_songs sentinel_tracks None None (Some "ONE") None None =
  filter_songs sentinel_tracks None None (Some "one") None None.
Proof.
  apply (filter_songs_text_casing sentinel_tracks None None None None None "ONE" "one").
  reflexivity.
Defined.

(** X16. Filtering an answer again with the same arguments changes nothing. *)
Theorem filter_songs_twice
    (songs : list song) (mood language q : option string) (energy_min energy_max : option Z) :
  value (filter_songs
           (value (filter_songs songs mood language q energy_min energy_max))
           mood language q energy_min energy_max) =
  value (filter_songs songs mood language q energy_min energy_max).
Proof.
  rewrite !value_filter_songs.
  rewrite (forallb_filter_id (passes mood language q energy_min energy_max)
             (list_sort _ _)).
  - apply list_sort_idem.
  - apply forallb_forall. intros s Hs. apply In_list_sort, filter_In in Hs. tauto.
Qed.

(** ** The recommendation page *)

Lemma In_take {A} (n : nat) (l : list A) x : In x (take n l) -> In x l.
Proof.
  intros H. rewrite <- (take_drop n l). apply in_or_app. now left.
Qed.

(** X18. A recommendation request never gets more than 100 rows; without a mood
    (none, or an empty one) it gets none, whatever the other arguments; and
    every row it gets is a record of the catalog whose mood is the requested
    one up to casing. *)
Theorem home_rows_capped (args : gmap string string) (songs : list song) :
  (length (home_rows args songs) <= 100)%nat /\
  (PyStr.truthy (args !! "mood") = false -> home_rows args songs = []) /\
  (forall s, In s (home_rows args songs) ->
     In s songs /\
     PyStr.lower (mood s) = PyStr.lower (default "" (args !! "mood"))).
Proof.
  unfold home_rows. destruct (PyStr.truthy (args !! "mood")) eqn:Hm.
  - destruct (parse_bounds (args !! "emin") (args !! "emax")) as [lo hi].
    split; [apply firstn_le_length |]. split; [discriminate |].
    intros s Hs. apply In_take, In_value_filter_songs in Hs. destruct Hs as [Hin Hp].
    split; [exact Hin |]. unfold passes in Hp. rewrite Hm in Hp.
    apply andb_true_iff in Hp. destruct Hp as [Hp _]. cbn [guard] in Hp.
    now apply String.eqb_eq in Hp.
  - repeat split; try (cbn; lia); contradiction.
Qed.

Lemma home_rows_capped_witness :
  home_rows (<["language" := "English"]> ∅) two_tracks = [].
Proof. apply (home_rows_capped (<["language" := "English"]> ∅) two_tracks). reflexivity. Defined.

(** ** Presentation *)

Section PresentationFacts.

Variable shorten : string -> Z -> string.

Lemma shorten_row_has_link (r : song) : link (shorten_row shorten r) <> "".
Proof.
  unfold shorten_row; cbn [link].
  destruct (PyStr.strip (link r)) as [| c l] eqn:E; cbn [PyStr.nonempty negb]; discriminate.
Qed.

(** X19. A presented row always has a link: the stored one, stripped, when that
    is not blank, and the search link of the row's title, artist, language
    and mood otherwise.  Mood, energy and language are shown as stored. *)
Theorem shorten_row_link (r : song) :
  link (shorten_row shorten r) <> "" /\
  (PyStr.strip (link r) <> "" -> link (shorten_row shorten r) = PyStr.strip (link r)) /\
  (PyStr.strip (link r) = "" ->
   link (shorten_row shorten r) =
   youtube_search_link [title r; artist r; language r; mood r; "song"]) /\
  mood (shorten_row shorten r) = mood r /\
  energy (shorten_row shorten r) = energy r /\
  language (shorten_row shorten r) = language r.
Proof.
  unfold shorten_row; cbn [link mood energy language].
  destruct (PyStr.strip (link r)) as [| c l] eqn:E; cbn [PyStr.nonempty negb].
  - repeat split; try reflexivity; try discriminate. congruence.
  - repeat split; try reflexivity; try discriminate.
Qed.

(** X20. Every row of the recommendation page and of the full listing has a
    link. *)
Theorem results_have_links (args : gmap string string) (songs : list song) :
  Forall (fun r => link r <> "") (home_results shorten args songs) /\
  Forall (fun r => link r <> "") (all_songs_results shorten songs).
Proof.
  unfold home_results, all_songs_results.
  split; apply List.Forall_forall; intros r Hr; apply in_map_iff in Hr;
    destruct Hr as (r0 & <- & _); apply shorten_row_has_link.
Qed.

End PresentationFacts.

(** ** The full listing *)

Section Listing.

Lemma str_compare_refl s : String.compare s s = Eq.
Proof.
  induction s as [| c r IH]; cbn; [reflexivity |].
  unfold Ascii.compare. now rewrite N.compare_refl.
Qed.

Lemma str_compare_lt_trans a b c :
  String.compare a b = Lt -> String.compare b c = Lt -> String.compare a c = Lt.
Proof.
  revert b c. induction a as [| x a IH]; intros [| y b] [| z c]; cbn;
    try discriminate; try reflexivity.
  unfold Ascii.compare.
  destruct (N.compare_spec (N_of_ascii x) (N_of_ascii y)),
           (N.compare_spec (N_of_ascii y) (N_of_ascii z)),
           (N.compare_spec (N_of_ascii x) (N_of_ascii z));
    intros Hab Hbc; try discriminate; try reflexivity; try lia; eauto.
Qed.

Lemma key_ltb_irrefl k : key_ltb k k = false.
Proof.
  unfold key_ltb, String.ltb. now rewrite !str_compare_refl.
Qed.

Lemma key_ltb_trans a b c :
  key_ltb a b = true -> key_ltb b c = true -> key_ltb a c = true.
Proof.
  destruct a as [a1 a2], b as [b1 b2], c as [c1 c2]. unfold key_ltb, String.ltb. cbn [fst snd].
  destruct (String.compare a1 b1) eqn:E1; try discriminate;
    destruct (String.compare b1 c1) eqn:E2; try discriminate; intros H1 H2.
  - apply String.compare_eq_iff in E1, E2. subst. rewrite str_compare_refl.
    destruct (String.compare a2 b2) eqn:F1; try discriminate.
    destruct (String.compare b2 c2) eqn:F2; try discriminate.
    now rewrite (str_compare_lt_trans _ _ _ F1 F2).
  - apply String.compare_eq_iff in E1. subst. now rewrite E2.
  - apply String.compare_eq_iff in E2. subst. now rewrite E1.
  - now rewrite (str_compare_lt_trans _ _ _ E1 E2).
Qed.

Lemma key_ltb_total a b : key_ltb a b = false -> key_ltb b a = false -> a = b.
Proof.
  destruct a as [a1 a2], b as [b1 b2]. unfold key_ltb, String.ltb. cbn [fst snd].
  rewrite (String.compare_antisym a1 b1), (String.compare_antisym a2 b2).
  destruct (String.compare b1 a1) eqn:E1; cbn [CompOpp]; try discriminate.
  apply String.compare_eq_iff in E1. subst.
  destruct (String.compare b2 a2) eqn:E2; cbn [CompOpp]; try discriminate.
  apply String.compare_eq_iff in E2. now subst.
Qed.

Lemma key_ltb_asym a b : key_ltb a b = true -> key_ltb b a = false.
Proof.
  intros H. destruct (key_ltb b a) eqn:E; [| reflexivity].
  pose proof (key_ltb_trans _ _ _ H E) as Hc. now rewrite key_ltb_irrefl in Hc.
Qed.

Lemma key_le_trans a b c :
  key_ltb b a = false -> key_ltb c b = false -> key_ltb c a = false.
Proof.
  intros H1 H2. destruct (key_ltb c a) eqn:E; [| reflexivity].
  destruct (key_ltb a b) eqn:E1.
  - pose proof (key_ltb_trans _ _ _ E E1) as Hc. congruence.
  - pose proof (key_ltb_total _ _ E1 H1). subst. congruence.
Qed.

Lemma insert_by_name_perm x l : Permutation (x :: l) (insert_by_name x l).
Proof.
  induction l as [| y r IH]; cbn; [reflexivity |].
  destruct (key_ltb (name_key y) (name_key x)); [| reflexivity].
  rewrite perm_swap. now constructor.
Qed.

Lemma sort_by_name_perm l : Permutation l (sort_by_name l).
Proof.
  induction l as [| x r IH]; cbn; [constructor |].
  rewrite <- insert_by_name_perm. now constructor.
Qed.

Lemma insert_by_name_sorted x l : sorted_by_name l -> sorted_by_name (insert_by_name x l).
Proof.
  unfold sorted_by_name. induction 1 as [| y r Hr IH Hy]; cbn.
  - repeat constructor.
  - destruct (key_ltb (name_key y) (name_key x)) eqn:E.
    + constructor; [assumption |].
      eapply Permutation_Forall; [apply insert_by_name_perm |].
      constructor; [now apply key_ltb_asym | assumption].
    + constructor; [now constructor |].
      constructor; [assumption |].
      eapply List.Forall_impl; [| exact Hy]. cbn. intros z Hz.
      now apply (key_le_trans _ (name_key y)).
Qed.

Lemma sort_by_name_sorted l : sorted_by_name (sort_by_name l).
Proof.
  induction l as [| x r IH]; cbn; [constructor |]. now apply insert_by_name_sorted.
Qed.

Lemma insert_by_name_stable k x l :
  with_key k (insert_by_name x l) = with_key k (x :: l).
Proof.
  unfold with_key. induction l as [| y r IH]; [reflexivity |].
  cbn [insert_by_name]. destruct (key_ltb (name_key y) (name_key x)) eqn:E; [| reflexivity].
  cbn [List.filter] in *. rewrite IH.
  destruct (decide (name_key x = k)) as [Hx | Hx], (decide (name_key y = k)) as [Hy | Hy].
  - rewrite Hy, <- Hx, key_ltb_irrefl in E. discriminate.
  - now rewrite (bool_decide_eq_true_2 _ Hx), (bool_decide_eq_false_2 _ Hy).
  - now rewrite (bool_decide_eq_false_2 _ Hx), (bool_decide_eq_true_2 _ Hy).
  - now rewrite (bool_decide_eq_false_2 _ Hx), (bool_decide_eq_false_2 _ Hy).
Qed.

Lemma sort_by_name_stable k l : with_key k (sort_by_name l) = with_key k l.
Proof.
  induction l as [| x r IH]; [reflexivity |].
  cbn [sort_by_name]. rewrite insert_by_name_stable.
  unfold with_key in *. cbn [List.filter]. now rewrite IH.
Qed.

(** X21. The full listing shows at most 300 rows, all of them records of the
    catalog, ordered by lower-cased artist and then lower-cased title.  With
    up to 300 records it shows every one of them, and records with the same
    artist and title up to casing keep the order of the catalog. *)
Theorem all_rows_sorted (songs : list song) :
  (length (all_rows songs) <= 300)%nat /\
  sorted_by_name (all_rows songs) /\
  (forall s, In s (all_rows songs) -> In s songs) /\
  ((length songs <= 300)%nat ->
   Permutation songs (all_rows songs) /\
   forall k, with_key k (all_rows songs) = with_key k songs).
Proof.
  unfold all_rows. repeat split.
  - apply firstn_le_length.
  - pose proof (sort_by_name_sorted songs) as Hs. unfold sorted_by_name in *.
    rewrite <- (take_drop 300 (sort_by_name songs)) in Hs.
    now apply StronglySorted_app_1_l in Hs.
  - intros s Hs. apply In_take in Hs.
    eapply Permutation_in; [symmetry; apply sort_by_name_perm | exact Hs].
  - rewrite take_ge; [apply sort_by_name_perm |].
    now rewrite <- (Permutation_length (sort_by_name_perm songs)).
  - intros k. rewrite take_ge; [apply sort_by_name_stable |].
    now rewrite <- (Permutation_length (sort_by_name_perm songs)).
Qed.

End Listing.

Lemma all_rows_sorted_witness :
  Permutation two_tracks (all_rows two_tracks).
Proof. apply (all_rows_sorted two_tracks). cbn. lia. Defined.

(** ** More on adding a song *)

Lemma upper_lower_char c : PyStr.upper_char (PyStr.lower_char c) = PyStr.upper_char c.
Proof. destruct c as [[] [] [] [] [] [] [] []]; reflexivity. Qed.

Lemma lower_lower_char c : PyStr.lower_char (PyStr.lower_char c) = PyStr.lower_char c.
Proof. destruct c as [[] [] [] [] [] [] [] []]; reflexivity. Qed.

Lemma lower_lower s : PyStr.lower (PyStr.lower s) = PyStr.lower s.
Proof.
  unfold PyStr.lower. induction s as [| c r IH]; cbn; [reflexivity |].
  now rewrite lower_lower_char, IH.
Qed.

Lemma capitalize_lower s : PyStr.capitalize (PyStr.lower s) = PyStr.capitalize s.
Proof.
  destruct s as [| c r]; [reflexivity |].
  cbn [PyStr.lower PyStr.map_chars PyStr.capitalize].
  fold (PyStr.lower r). now rewrite upper_lower_char, lower_lower.
Qed.

Lemma or_default_empty o :
  PyStr.or_default o "" = default "" o.
Proof. destruct o as [[| c r] |]; reflexivity. Qed.

(** X22. Whatever is submitted, [add_song] either leaves the store as it is or
    saves one row, and a row it saves is fit for the catalog: its title is
    not empty, its mood is one of the tracked moods, its energy lies between
    1 and 5 and it has a link. *)
Theorem add_song_saves_valid_row (form : gmap string string) (st : store) :
  fst (add_song POST form st) = st \/
  exists row, fst (add_song POST form st) = save_song row st /\ valid_row row.
Proof.
  unfold add_song.
  set (t := PyStr.strip (PyStr.or_default (form !! "title") "")).
  set (m := PyStr.capitalize (PyStr.strip (PyStr.or_default (form !! "mood") ""))).
  set (l := PyStr.strip (PyStr.or_default (form !! "link") "")).
  destruct (PyStr.nonempty t) eqn:Ht; cbn [negb orb]; [| now left].
  destruct (PyStr.nonempty m) eqn:Hm; cbn [negb orb]; [| now left].
  destruct (str_in m MOODS) eqn:Hin; cbn [negb]; [| now left].
  right. eexists. split; [reflexivity |].
  unfold valid_row; cbn [title mood energy link]. repeat split.
  - intros E. rewrite E in Ht. discriminate.
  - now apply str_in_In.
  - destruct (PyStr.int _); lia.
  - destruct (PyStr.int _); lia.
  - destruct (PyStr.nonempty l) eqn:Hl; cbn [negb]; [| discriminate].
    intros E. rewrite E in Hl. discriminate.
Qed.

(** X23. A tracked mood is accepted in any casing and with blanks around it, and
    is saved in its tracked spelling. *)
Theorem add_song_normalizes_mood
    (form : gmap string string) (st : store) (m m0 : string) :
  form !! "mood" = Some m -> In m0 MOODS ->
  PyStr.lower (PyStr.strip m) = PyStr.lower m0 ->
  PyStr.strip (PyStr.or_default (form !! "title") "") <> "" ->
  exists row,
    add_song POST form st = (save_song row st, RedirectAllSongs "✅ Song added!") /\
    mood row = m0.
Proof.
  intros Hm Hin Hlow Ht. unfold add_song. rewrite Hm.
  assert (Hcap : PyStr.capitalize (PyStr.strip (PyStr.or_default (Some m) "")) = m0).
  { rewrite or_default_empty. change (default "" (Some m)) with m.
    rewrite <- capitalize_lower, Hlow.
    cbn in Hin. destruct Hin as [<- | [<- | [<- | [<- | [<- | []]]]]]; reflexivity. }
  rewrite Hcap.
  destruct (PyStr.nonempty (PyStr.strip (PyStr.or_default (form !! "title") ""))) eqn:E;
    [| apply nonempty_false in E; contradiction].
  assert (Hne : PyStr.nonempty m0 = true).
  { cbn in Hin. destruct Hin as [<- | [<- | [<- | [<- | [<- | []]]]]]; reflexivity. }
  assert (Hsin : str_in m0 MOODS = true) by now apply str_in_In.
  rewrite Hne, Hsin. cbn [negb orb].
  eexists. split; [reflexivity | reflexivity].
Qed.

Lemma add_song_normalizes_mood_witness :
  exists row,
    add_song POST (<["mood" := "  cALM "]> {["title" := "Rain"]}) (Present [HEADER]) =
      (save_song row (Present [HEADER]), RedirectAllSongs "✅ Song added!") /\
    mood row = "Calm".
Proof.
  apply (add_song_normalizes_mood _ _ "  cALM " "Calm");
    [reflexivity | cbn; tauto | reflexivity | discriminate].
Defined.

Lemma shorten_row_link_witness :
  link (shorten_row (fun text _ => text) (Song "Rain" "" "Calm" 1 "Hindi" "  ")) =
  youtube_search_link ["Rain"; ""; "Hindi"; "Calm"; "song"].
Proof.
  apply (shorten_row_link (fun text _ => text) (Song "Rain" "" "Calm" 1 "Hindi" "  ")).
  reflexivity.
Defined.

(** ** Two more facts on writing and on the caller's list *)

(** X8. An energy the program writes is read back as the same integer, whatever
    its size or sign. *)
Theorem written_energy_read_back (s : song) :
  parse_energy (zip_row HEADER (writerow s) ∅) = Ok (energy s).
Proof.
  rewrite parse_energy_value, energy_value_written; [reflexivity |].
  rewrite zip_row_energy. discriminate.
Qed.

(** X17. As soon as one filter is given, [filter_songs] returns a new list and
    leaves the caller's list as it was; and in every case the caller's list
    keeps all its records, each as many times as before. *)
Theorem filter_songs_copies_when_filtering
    (songs : list song) (mood language q : option string) (energy_min energy_max : option Z) :
  let o := filter_songs songs mood language q energy_min energy_max in
  (some_filter_given mood language q energy_min energy_max = true ->
   caller_list o = songs /\ is_new (returned o) = true) /\
  Permutation songs (caller_list o).
Proof.
  cbn zeta. rewrite filter_songs_unfold.
  destruct (some_filter_given mood language q energy_min energy_max); cbn.
  - repeat split; reflexivity.
  - split; [discriminate | apply list_sort_perm].
Qed.

Lemma filter_songs_copies_when_filtering_witness :
  caller_list (filter_songs two_tracks None None None (Some 1) None) = two_tracks.
Proof.
  apply (filter_songs_copies_when_filtering two_tracks None None None (Some 1) None).
  reflexivity.
Defined.
